(** * kimi-cli: tool outcomes, their translation to messages, the Bash tool
      and the shell visualizer

    A shallow embedding of

    - [kimi_cli/utils/message.py]   (the result translator),
    - [kimi_cli/tools/bash/__init__.py] (the subprocess tool),
    - [kimi_cli/event.py] and [kimi_cli/ui/shell/__init__.py]
      (the event union, [ShellApp._visualize] and the prompt loop of
      [ShellApp.run]),
    - [kimi_cli/ui/tui/metacmd.py] (the meta commands and their
      completer).

    Python exceptions are values of [exn]; a call that may raise returns
    a [result].  Python strings are [string]; [bytes] are lists of bytes. *)

From Stdlib Require Import List String Ascii ZArith QArith Bool Lia.
From Stdlib Require Import DecimalString.
From Stdlib Require Import Sorting.Sorted Sorting.Permutation.
Import ListNotations.
Open Scope string_scope.
Open Scope list_scope.

(** ** Python preliminaries *)

Module Py.

(** The exceptions the modelled code can raise or let through. *)
Inductive exn : Type :=
| AssertionError (msg : string)
| TimeoutError
| CancelledError
| UnicodeDecodeError
| ValueError.

(** The outcome of a call: a value, or an exception on its way up. *)
Inductive result (A : Type) : Type :=
| Return (a : A)
| Raise (e : exn).
Arguments Return {A} a.
Arguments Raise {A} e.

Definition bind {A B} (r : result A) (k : A -> result B) : result B :=
  match r with
  | Return a => k a
  | Raise e => Raise e
  end.

(** [assert cond, msg] *)
Definition assert (cond : bool) (msg : string) : result unit :=
  if cond then Return tt else Raise (AssertionError msg).

(** Truth value of a [str]: only the empty string is falsy. *)
Definition truthy (s : string) : bool :=
  match s with
  | EmptyString => false
  | String _ _ => true
  end.

(** [not xs] for a list. *)
Definition is_empty {A} (xs : list A) : bool :=
  match xs with
  | [] => true
  | _ :: _ => false
  end.

(** [str(n)] / [f"{n}"] for an [int]: decimal digits, a leading minus
    sign for negative numbers. *)
Definition str_int (n : Z) : string := NilZero.string_of_int (Z.to_int n).

(** ["".join(parts)] *)
Definition join (parts : list string) : string :=
  fold_right String.append "" parts.

End Py.

Import Py.

Declare Scope py_scope.
Notation "x <- c ;; k" := (bind c (fun x => k))
  (at level 61, c at next level, right associativity) : py_scope.
Notation "c ;;; k" := (bind c (fun _ => k))
  (at level 61, right associativity) : py_scope.
Open Scope py_scope.

(** ** The kosong data model used by the translator *)

Module Kosong.

(** [ContentPart] and its subclasses.  The code only ever tells
    [TextPart] apart from the rest (with [isinstance]) and, in the
    visualizer, reads the class name of the rest. *)
Inductive ContentPart : Type :=
| TextPart (text : string)
| OtherPart (class_name : string) (payload : string).

Definition is_TextPart (part : ContentPart) : bool :=
  match part with
  | TextPart _ => true
  | OtherPart _ _ => false
  end.

Inductive Role : Type := role_system | role_user | role_assistant | role_tool.

Record Message : Type := mkMessage {
  role : Role;
  content : list ContentPart;
  tool_call_id : option string
}.

(** [ToolOk.output : str | ContentPart | Sequence[ContentPart]] *)
Inductive Output : Type :=
| OutStr (text : string)
| OutPart (part : ContentPart)
| OutSeq (parts : list ContentPart).

Record ToolOk : Type := mkToolOk {
  ok_output : Output;
  ok_message : string;      (* defaults to "" *)
  ok_brief : string         (* defaults to "" *)
}.

Record ToolError : Type := mkToolError {
  err_output : string;      (* defaults to "" *)
  err_message : string;
  err_brief : string
}.

(** [ToolReturnType = ToolOk | ToolError] *)
Inductive ToolReturnType : Type :=
| Ok (r : ToolOk)
| Error (e : ToolError).

Record ToolResult : Type := mkToolResult {
  tr_tool_call_id : string;
  tr_result : ToolReturnType
}.

End Kosong.

Import Kosong.

(** ** [kimi_cli/utils/message.py] *)

Module MessageUtils.

Definition system_message (message : string) : ContentPart :=
  TextPart ("<system>" ++ message ++ "</system>")%string.

Definition non_text_notice : string :=
  "Tool output contains non-text parts. Non-text parts are sent as a user message below.".

Definition empty_sentinel : string := "Tool output is empty.".

Definition tool_ok_to_message_content (result : ToolOk) : list ContentPart :=
  let content := [] in
  let content :=
    if truthy (ok_message result)
    then content ++ [system_message (ok_message result)]
    else content in
  let content :=
    match ok_output result with
    | OutStr text =>
        if truthy text then content ++ [TextPart text] else content
    | OutPart output => content ++ [output]
    | OutSeq output => content ++ output
    end in
  let content :=
    if is_empty content
    then content ++ [system_message empty_sentinel]
    else content in
  content.

Definition tool_result_to_messages (tool_result : ToolResult)
  : result (list Message) :=
  match tr_result tool_result with
  | Error e =>
      assert (truthy (err_message e)) "ToolError should have a message" ;;;
      let content := [system_message (err_message e)] in
      let content :=
        if truthy (err_output e)
        then content ++ [TextPart (err_output e)]
        else content in
      Return [ mkMessage role_tool content
                         (Some (tr_tool_call_id tool_result)) ]
  | Ok r =>
      let content := tool_ok_to_message_content r in
      let text_parts := filter is_TextPart content in
      let non_text_parts := filter (fun p => negb (is_TextPart p)) content in
      if is_empty non_text_parts then
        Return [ mkMessage role_tool text_parts
                           (Some (tr_tool_call_id tool_result)) ]
      else
        let text_parts := text_parts ++ [system_message non_text_notice] in
        Return [ mkMessage role_tool text_parts
                           (Some (tr_tool_call_id tool_result));
                 mkMessage role_user non_text_parts None ]
  end.

End MessageUtils.

(** ** The asyncio environment of the Bash tool

    A child process and the event loop are modelled by what the awaiting
    task observes, in order: a [schedule] of occurrences.  A call that
    awaits ends in one of three ways: it returns, it raises, or it is
    still suspended when the schedule is over. *)

Module Asyncio.

Definition bytes : Type := list Byte.byte.

Inductive Stream : Type := Stdout | Stderr.

Inductive Occurrence : Type :=
| Readline (s : Stream) (line : bytes)
    (* [await stream.readline()] on [s] completes with [line], a line
       within the limit of the reader; the empty line is end-of-file *)
| TimeoutElapses
    (* [timeout] seconds have passed since [asyncio.wait_for] was
       entered *)
| CancelRequest
    (* the task that runs the tool is cancelled *)
| ProcessExits (code : Z)
    (* the child terminates with this return code *)
| ReadlineOverrun (s : Stream).
    (* [await stream.readline()] on [s] raises [ValueError]: the line
       is longer than the limit of the reader, 64 KiB *)

Definition schedule : Type := list Occurrence.

(** The child as the tool sees it. *)
Record Process : Type := mkProcess {
  killed : bool;                (* [process.kill()] has been called *)
  returncode : option Z         (* [None] while the child runs *)
}.

Definition spawn : Process := mkProcess false None.

Definition kill (p : Process) : Process := mkProcess true (returncode p).

Definition exits (code : Z) (p : Process) : Process :=
  match returncode p with
  | None => mkProcess (killed p) (Some code)
  | Some _ => p
  end.

Inductive Outcome (A : Type) : Type :=
| Returned (a : A)
| Raised (e : exn)
| Suspended.
Arguments Returned {A} a.
Arguments Raised {A} e.
Arguments Suspended {A}.

(** Well-formed UTF-8 (Unicode, table 3-7): what [bytes.decode()]
    accepts.  A Python [str] is represented by its UTF-8 encoding. *)
Definition between (lo hi n : N) : bool := ((lo <=? n) && (n <=? hi))%N.

Definition continuation (n : N) : bool := between 128 191 n.

Fixpoint well_formed_utf8 (bs : bytes) : bool :=
  match bs with
  | [] => true
  | b0 :: r0 =>
      let n0 := Byte.to_N b0 in
      if (n0 <=? 127)%N then well_formed_utf8 r0
      else
        match r0 with
        | [] => false
        | b1 :: r1 =>
            let n1 := Byte.to_N b1 in
            if between 194 223 n0 then
              continuation n1 && well_formed_utf8 r1
            else
              match r1 with
              | [] => false
              | b2 :: r2 =>
                  let n2 := Byte.to_N b2 in
                  if between 224 239 n0 then
                    (if (n0 =? 224)%N then between 160 191 n1
                     else if (n0 =? 237)%N then between 128 159 n1
                     else continuation n1)
                    && continuation n2 && well_formed_utf8 r2
                  else
                    match r2 with
                    | [] => false
                    | b3 :: r3 =>
                        let n3 := Byte.to_N b3 in
                        between 240 244 n0
                        && (if (n0 =? 240)%N then between 144 191 n1
                            else if (n0 =? 244)%N then between 128 143 n1
                            else continuation n1)
                        && continuation n2 && continuation n3
                        && well_formed_utf8 r3
                    end
              end
        end
  end.

(** [line.decode()] *)
Definition decode (line : bytes) : result string :=
  if well_formed_utf8 line
  then Return (string_of_list_byte line)
  else Raise UnicodeDecodeError.

End Asyncio.

Import Asyncio.

(** ** [kimi_cli/tools/bash/__init__.py] *)

Module BashTool.

Section StreamSubprocess.

(** The callbacks write to a buffer owned by the caller; [Buf] is the
    type of that buffer, threaded through the calls. *)
Context {Buf : Type}.
Variables stdout_cb stderr_cb : bytes -> Buf -> result Buf.

Definition cb_of (s : Stream) : bytes -> Buf -> result Buf :=
  match s with
  | Stdout => stdout_cb
  | Stderr => stderr_cb
  end.

(** How [await asyncio.wait_for(asyncio.gather(...), timeout)] ends. *)
Inductive Gathered : Type :=
| Completed (rest : schedule) (buf : Buf) (p : Process)
| Failed (e : exn) (buf : Buf) (p : Process)
| Pending (buf : Buf) (p : Process).

(** The two [_read_stream] loops under [gather] and [wait_for].
    [out_open] and [err_open] say which loop is still running: a loop
    ends with [break] at the first empty line.  An exception raised
    by [readline] or by a callback leaves through [gather]. *)
Fixpoint gather_read_streams (sched : schedule)
    (out_open err_open : bool) (buf : Buf) (p : Process) : Gathered :=
  if negb out_open && negb err_open then Completed sched buf p
  else
    match sched with
    | [] => Pending buf p
    | Readline s line :: sched' =>
        let open := match s with Stdout => out_open | Stderr => err_open end in
        if negb open then
          (* nobody awaits this stream any more *)
          gather_read_streams sched' out_open err_open buf p
        else if is_empty line then
          match s with
          | Stdout => gather_read_streams sched' false err_open buf p
          | Stderr => gather_read_streams sched' out_open false buf p
          end
        else
          match cb_of s line buf with
          | Return buf' =>
              gather_read_streams sched' out_open err_open buf' p
          | Raise e => Failed e buf p
          end
    | TimeoutElapses :: _ => Failed TimeoutError buf p
    | CancelRequest :: _ => Failed CancelledError buf p
    | ProcessExits code :: sched' =>
        gather_read_streams sched' out_open err_open buf (exits code p)
    | ReadlineOverrun s :: sched' =>
        let open := match s with Stdout => out_open | Stderr => err_open end in
        if negb open then
          gather_read_streams sched' out_open err_open buf p
        else Failed ValueError buf p
    end.

(** [await process.wait()], after [wait_for] has returned: no stream is
    read any more, and the timeout, which was handed to [wait_for] alone,
    is not watched. *)
Fixpoint process_wait (sched : schedule) (p : Process)
  : Outcome Z * Process :=
  match returncode p with
  | Some code => (Returned code, p)
  | None =>
      match sched with
      | [] => (Suspended, p)
      | ProcessExits code :: _ => (Returned code, exits code p)
      | CancelRequest :: _ => (Raised CancelledError, p)
      | Readline _ _ :: sched' => process_wait sched' p
      | TimeoutElapses :: sched' => process_wait sched' p
      | ReadlineOverrun _ :: sched' => process_wait sched' p
      end
  end.

(** [_stream_subprocess(command, stdout_cb, stderr_cb, timeout)].  What
    [command] does, and when [timeout] seconds are over, is in the
    schedule. *)
Definition _stream_subprocess (command : string) (timeout : Z)
    (sched : schedule) (buf : Buf) : Outcome Z * Buf * Process :=
  let process := spawn in
  match gather_read_streams sched true true buf process with
  | Completed rest buf process =>
      let '(r, process) := process_wait rest process in
      (r, buf, process)
  | Failed TimeoutError buf process =>
      (* except TimeoutError: process.kill(); raise *)
      (Raised TimeoutError, buf, kill process)
  | Failed e buf process => (Raised e, buf, process)
  | Pending buf process => (Suspended, buf, process)
  end.

End StreamSubprocess.

Definition stdout_cb (line : bytes) (output : list string)
  : result (list string) :=
  line_str <- decode line ;;
  Return (output ++ [line_str]).

Definition stderr_cb (line : bytes) (output : list string)
  : result (list string) :=
  line_str <- decode line ;;
  Return (output ++ [line_str]).

(** The default of the signature, [timeout: int = 60]. *)
Definition default_timeout : Z := 60.

(** [Bash.__call__]; the result comes with the final state of the
    child. *)
Definition Bash_call (command : string) (timeout : Z) (sched : schedule)
  : Outcome ToolReturnType * Process :=
  let output := [] in
  match _stream_subprocess stdout_cb stderr_cb command timeout sched output with
  | (Returned exitcode, output, process) =>
      let output_str := join output in
      if (exitcode =? 0)%Z then
        (Returned (Ok (mkToolOk (OutStr output_str)
                                "Command executed successfully." "")),
         process)
      else
        (Returned (Error (mkToolError output_str
           ("Command failed with exit code: " ++ str_int exitcode)%string
           ("Failed with exit code: " ++ str_int exitcode)%string)),
         process)
  | (Raised TimeoutError, output, process) =>
      let output_str := join output in
      (Returned (Error (mkToolError output_str
         ("Command killed by timeout (" ++ str_int timeout ++ "s)")%string
         ("Killed by timeout (" ++ str_int timeout ++ "s)")%string)),
       process)
  | (Raised e, _, process) => (Raised e, process)
  | (Suspended, _, process) => (Suspended, process)
  end.

End BashTool.


(** ** JSON values and the fragment of JSON Schema the tool declares

    [Bash.parameters] is a JSON Schema, written as a Python dict
    literal.  Numbers are integers here; fractional numbers play no
    role in what follows. *)

Module Json.

#[warnings="-register-all"]
Inductive Json : Type :=
| JNull
| JBool (b : bool)
| JNumber (n : Z)
| JString (s : string)
| JArray (items : list Json)
| JObject (members : list (string * Json)).

(** [d.get(key)] on the members of an object. *)
Fixpoint get (key : string) (members : list (string * Json)) : option Json :=
  match members with
  | [] => None
  | (k, v) :: members' => if (k =? key)%string then Some v else get key members'
  end.

(** [d[k1][k2]...] through nested objects. *)
Fixpoint at_path (path : list string) (j : Json) : option Json :=
  match path with
  | [] => Some j
  | key :: path' =>
      match j with
      | JObject members =>
          match get key members with
          | Some j' => at_path path' j'
          | None => None
          end
      | _ => None
      end
  end.

(** The keyword ["type"]. *)
Definition type_ok (ty : Json) (instance : Json) : bool :=
  match ty, instance with
  | JString "object", JObject _ => true
  | JString "string", JString _ => true
  | JString "number", JNumber _ => true
  | JString "integer", JNumber _ => true
  | JString "boolean", JBool _ => true
  | JString "array", JArray _ => true
  | JString "null", JNull => true
  | JString _, _ => false
  | _, _ => true
  end.

(** The keyword ["required"]: applies to objects only. *)
Definition required_ok (names : Json) (instance : Json) : bool :=
  match names, instance with
  | JArray names, JObject members =>
      forallb (fun name =>
                 match name with
                 | JString name =>
                     match get name members with
                     | Some _ => true
                     | None => false
                     end
                 | _ => true
                 end) names
  | _, _ => true
  end.

(** The keywords ["maximum"] and ["minimum"]: apply to numbers only. *)
Definition maximum_ok (bound : Json) (instance : Json) : bool :=
  match bound, instance with
  | JNumber m, JNumber n => (n <=? m)%Z
  | _, _ => true
  end.

Definition minimum_ok (bound : Json) (instance : Json) : bool :=
  match bound, instance with
  | JNumber m, JNumber n => (m <=? n)%Z
  | _, _ => true
  end.

(** Modelled from the spec: the validation that kosong's [CallableTool]
    runs on the arguments of a call before the tool body ("parameter
    validation happens before invocation; schema-violating arguments are
    rejected before the tool body runs").  It follows JSON Schema for the
    keywords ["type"], ["required"], ["maximum"], ["minimum"] and
    ["properties"]; annotations (["description"], ["default"]) and
    unknown keywords constrain nothing. *)
Fixpoint validate (schema : Json) (instance : Json) {struct schema} : bool :=
  match schema with
  | JBool b => b
  | JObject keywords =>
      (fix all_keywords (kws : list (string * Json)) : bool :=
         match kws with
         | [] => true
         | (kw, v) :: kws' =>
             (if (kw =? "type")%string then type_ok v instance
              else if (kw =? "required")%string then required_ok v instance
              else if (kw =? "maximum")%string then maximum_ok v instance
              else if (kw =? "minimum")%string then minimum_ok v instance
              else if (kw =? "properties")%string then
                match v, instance with
                | JObject props, JObject members =>
                    (fix all_props (ps : list (string * Json)) : bool :=
                       match ps with
                       | [] => true
                       | (name, sub) :: ps' =>
                           match get name members with
                           | Some x => validate sub x
                           | None => true
                           end && all_props ps'
                       end) props
                | _, _ => true
                end
              else true)
             && all_keywords kws'
         end) keywords
  | _ => true
  end.

End Json.

Import Json.

(** ** The Bash tool as a [CallableTool] *)

Module BashSchema.

Definition timeout_description : string :=
  "The timeout in seconds for the command to execute.                     If the command takes longer than this, it will be killed.".

(** [Bash.parameters] *)
Definition parameters : Json :=
  JObject [
    ("type", JString "object");
    ("properties", JObject [
       ("command", JObject [
          ("type", JString "string");
          ("description", JString "The bash command to execute.") ]);
       ("timeout", JObject [
          ("type", JString "number");
          ("description", JString timeout_description);
          ("default", JNumber 60) ]) ]);
    ("required", JArray [JString "command"])
  ].

(** What a call through the tool interface comes to. *)
Inductive Dispatch : Type :=
| Rejected
    (* the arguments violate the schema: the body does not run *)
| Invoked (command : string) (timeout : Z)
    (* the body runs: [Bash.__call__(command, timeout)] *)
| InvokedUntyped (command : Json) (timeout : option Json)
    (* the body runs on a command that is no string or a timeout that is
       no number: the binding does not look at the values *)
| BindingError.
    (* [TypeError] from the binding of the arguments to the signature:
       the body does not run *)

(** The body on the values bound to [command] and [timeout]. *)
Definition invoke (command : Json) (timeout : option Json) : Dispatch :=
  match command, timeout with
  | JString command, None => Invoked command BashTool.default_timeout
  | JString command, Some (JNumber timeout) => Invoked command timeout
  | _, _ => InvokedUntyped command timeout
  end.

Definition declared (key : string) : bool :=
  (key =? "command")%string || (key =? "timeout")%string.

(** Binding of the arguments to the signature
    [__call__(self, command: str, timeout: int = 60)]: the members of
    an object as keyword arguments, the items of an array as positional
    arguments, anything else as the one argument. *)
Definition bind (arguments : Json) : Dispatch :=
  match arguments with
  | JObject members =>
      if negb (forallb (fun kv => declared (fst kv)) members) then BindingError
      else
        match get "command" members with
        | None => BindingError
        | Some command => invoke command (get "timeout" members)
        end
  | JArray [] => BindingError
  | JArray [command] => invoke command None
  | JArray [command; timeout] => invoke command (Some timeout)
  | JArray _ => BindingError
  | command => invoke command None
  end.

(** Modelled from the spec: kosong's [CallableTool.call(arguments)]
    validates the arguments against [parameters], turns a violation into
    a rejection, and binds the validated arguments to [__call__]. *)
Definition call (arguments : Json) : Dispatch :=
  if validate parameters arguments then bind arguments else Rejected.

End BashSchema.


(** ** [kimi_cli/event.py] *)

Module Events.

(** kosong's [ToolCall] and [ToolCallPart], reduced to their fields. *)
Record ToolCall : Type := mkToolCall {
  tc_id : string;
  tc_name : string;
  tc_arguments : option string
}.

Record ToolCallPart : Type := mkToolCallPart {
  arguments_part : option string
}.

(** [Event = ControlFlowEvent | ContentPart | ToolCall | ToolCallPart |
    ToolResult].  The usage percentage, a float in the code, is carried
    as a rational: it is only passed on. *)
Inductive Event : Type :=
| RunBegin
| RunEnd
| StepBegin (n : Z)
| StepInterrupted
| ContextUsageUpdate (usage_percentage : Q)
| Content (part : ContentPart)
| Call (tool_call : ToolCall)
| CallPart (part : ToolCallPart)
| Result (tool_result : ToolResult).

(** [EventQueue]: the events put and not yet taken, oldest first. *)
Definition EventQueue : Type := list Event.

Definition put_nowait (queue : EventQueue) (event : Event) : EventQueue :=
  queue ++ [event].

(** [await event_queue.get()]: the oldest event, or [None] when the
    caller stays suspended on an empty queue. *)
Definition get (queue : EventQueue) : option (Event * EventQueue) :=
  match queue with
  | [] => None
  | event :: queue' => Some (event, queue')
  end.

Definition is_RunBegin (e : Event) : bool :=
  match e with RunBegin => true | _ => false end.

Definition is_RunEnd (e : Event) : bool :=
  match e with RunEnd => true | _ => false end.

Definition is_StepBegin (e : Event) : bool :=
  match e with StepBegin _ => true | _ => false end.

Definition is_StepInterrupted (e : Event) : bool :=
  match e with StepInterrupted => true | _ => false end.

End Events.

Import Events.

(** ** [ShellApp._visualize] in [kimi_cli/ui/shell/__init__.py] *)

Module ShellApp.

(** Modelled from the spec: the console and [StepLiveView]
    ([kimi_cli.ui.shell.console], [kimi_cli.ui.shell.liveview]) are
    rendering detail outside the core.  Their methods are taken to record
    what they are asked to draw, in order, and not to raise. *)
Inductive Render : Type :=
| Spinner                                  (* [console.status("", spinner="moon")] *)
| EnterStep                                (* [with StepLiveView(...) as step] *)
| AppendText (text : string)
| AppendToolCall (tool_call : ToolCall)
| AppendToolCallPart (part : ToolCallPart)
| AppendToolResult (tool_result : ToolResult)
| UpdateContextUsage (usage : Q)
| Interrupt
| Finish.

Definition Screen : Type := list Render.

(** How the inner [while True] of one step ends. *)
Inductive StepExit : Type :=
| Broke (event : Event) (queue : EventQueue) (step : Screen)
    (* [break], at an event none of the cases matches *)
| Starved (step : Screen).
    (* suspended in [event_queue.get()] for good *)

(** The visualization loop for one step. *)
Fixpoint step_loop (event : Event) (queue : EventQueue) (step : Screen)
    {struct queue} : StepExit :=
  match
    match event with
    | Content (TextPart text) => Some (step ++ [AppendText text])
    | Content (OtherPart class_name _) =>
        Some (step ++ [AppendText ("[" ++ class_name ++ "]")%string])
    | Call tool_call => Some (step ++ [AppendToolCall tool_call])
    | CallPart part => Some (step ++ [AppendToolCallPart part])
    | Result tool_result => Some (step ++ [AppendToolResult tool_result])
    | ContextUsageUpdate usage => Some (step ++ [UpdateContextUsage usage])
    | _ => None
    end
  with
  | None => Broke event queue step
  | Some step =>
      match queue with
      | [] => Starved step
      | event :: queue => step_loop event queue step
      end
  end.

(** The outer [while True].  Every round takes at least one event off
    the queue; [fuel] bounds the number of rounds, and [None] is the
    answer only when it runs out. *)
Fixpoint visualize_loop (fuel : nat) (queue : EventQueue) (screen : Screen)
  : option (Outcome unit * Screen) :=
  match fuel with
  | O => None
  | S fuel =>
      match get queue with
      | None => Some (Suspended, screen ++ [Spinner])
      | Some (event, queue) =>
          match step_loop event queue (screen ++ [Spinner; EnterStep]) with
          | Starved step => Some (Suspended, step)
          | Broke event queue step =>
              let step :=
                if is_StepInterrupted event
                then step ++ [Interrupt]
                else step ++ [Finish] in
              if is_StepInterrupted event then Some (Returned tt, step)
              else if negb (is_StepBegin event || is_RunEnd event)
              then Some (Raised (AssertionError "expect a StepBegin or RunEnd"),
                         step)
              else if is_StepBegin event then visualize_loop fuel queue step
              else Some (Returned tt, step)
          end
      end
  end.

Definition visualize_with (fuel : nat) (event_queue : EventQueue)
  : option (Outcome unit * Screen) :=
  match get event_queue with
  | None => Some (Suspended, [])
  | Some (event, queue) =>
      if negb (is_RunBegin event)
      then Some (Raised (AssertionError ""), [])
      else
        match get queue with
        | None => Some (Suspended, [])
        | Some (event, queue) =>
            if negb (is_StepBegin event)
            then Some (Raised (AssertionError ""), [])
            else visualize_loop fuel queue []
        end
  end.

(** [ShellApp._visualize(event_queue)], run against the events that the
    queue will ever deliver. *)
Definition _visualize (event_queue : EventQueue)
  : option (Outcome unit * Screen) :=
  visualize_with (S (List.length event_queue)) event_queue.

(** The end of the loop as it can be read off the events that follow the
    first [StepBegin]: the first [StepInterrupted] or [RunEnd] ends it,
    a [RunBegin] before that fails the assertion, and without either the
    loop keeps waiting.  The loops above are compared with this reading
    below. *)
Fixpoint outcome_of_stream (events : list Event) : Outcome unit :=
  match events with
  | [] => Suspended
  | StepInterrupted :: _ => Returned tt
  | RunEnd :: _ => Returned tt
  | RunBegin :: _ => Raised (AssertionError "expect a StepBegin or RunEnd")
  | _ :: events => outcome_of_stream events
  end.

End ShellApp.


(** ** [message_extract_text] in [kimi_cli/utils/message.py] *)

Module MessageText.

(** [Message.content : str | list[ContentPart]].  The messages built by
    the translator above all carry a list. *)
Inductive MessageContent : Type :=
| Text (text : string)
| Parts (parts : list ContentPart).

Definition newline : string := String "010"%char EmptyString.

(** [part.text for part in content if isinstance(part, TextPart)] *)
Definition texts (parts : list ContentPart) : list string :=
  flat_map (fun part =>
              match part with
              | TextPart text => [text]
              | OtherPart _ _ => []
              end) parts.

(** [message_extract_text(message)], as a function of [message.content],
    the only field it reads. *)
Definition message_extract_text (content : MessageContent) : string :=
  match content with
  | Text text => text
  | Parts parts => String.concat newline (texts parts)
  end.

End MessageText.

(** ** [kimi_cli/ui/tui/metacmd.py] *)

Module MetaCmd.

(** A [dict] with string keys: the items in insertion order.  Assigning
    to a key that is present replaces the value in place. *)
Definition dict (V : Type) : Type := list (string * V).

Fixpoint dict_get {V} (key : string) (d : dict V) : option V :=
  match d with
  | [] => None
  | (k, v) :: d' => if (k =? key)%string then Some v else dict_get key d'
  end.

Fixpoint dict_set {V} (key : string) (value : V) (d : dict V) : dict V :=
  match d with
  | [] => [(key, value)]
  | (k, v) :: d' =>
      if (k =? key)%string then (k, value) :: d'
      else (k, v) :: dict_set key value d'
  end.

Definition dict_keys {V} (d : dict V) : list string := map fst d.

Definition dict_values {V} (d : dict V) : list V := map snd d.

(** A function under the decorator: its [__name__] and [__doc__].  Two
    functions are told apart by these here. *)
Record PyFunction : Type := mkFunction {
  fn_name : string;
  fn_doc : option string
}.

Record MetaCommand : Type := mkMetaCommand {
  name : string;
  description : string;
  func : PyFunction;
  aliases : list string
}.

(** [MetaCommand.slash_name]: "/name (aliases)" *)
Definition slash_name (self : MetaCommand) : string :=
  if is_empty (aliases self)
  then ("/" ++ name self)%string
  else ("/" ++ name self ++ " (" ++ String.concat ", " (aliases self) ++ ")")%string.

(** The two module-level tables. *)
Record Registry : Type := mkRegistry {
  _meta_commands : dict MetaCommand;          (* primary name -> command *)
  _meta_command_aliases : dict MetaCommand    (* primary name or alias -> command *)
}.

Definition empty_registry : Registry := mkRegistry [] [].

Definition get_meta_command (reg : Registry) (name : string)
  : option MetaCommand :=
  dict_get name (_meta_command_aliases reg).

Definition get_meta_commands (reg : Registry) : list MetaCommand :=
  dict_values (_meta_commands reg).

(** What the tables keep through every registration, stated for the
    proofs below: a key occurs once in the table of primary names, the
    command under a key bears that name, and every primary name is a key
    of the table of aliases. *)
Definition registry_ok (reg : Registry) : Prop :=
  NoDup (dict_keys (_meta_commands reg))
  /\ Forall (fun kv => name (snd kv) = fst kv) (_meta_commands reg)
  /\ incl (dict_keys (_meta_commands reg))
          (dict_keys (_meta_command_aliases reg)).

Section Strings.

(** [str.strip()] and [str.lower()] are taken as they come: nothing
    below depends on what they do to a string. *)
Variable strip : string -> string.
Variable lower : string -> string.

(** [_register(f)] inside [meta_command(func, name=..., aliases=...)]:
    what the decorator does to the tables, applied to [f] at once or
    after the keyword arguments. *)
Definition _register (name : option string) (aliases : option (list string))
    (f : PyFunction) (reg : Registry) : Registry :=
  let primary :=
    match name with
    | Some n => if truthy n then n else fn_name f
    | None => fn_name f
    end in
  let alias_list :=
    match aliases with
    | Some a => if is_empty a then [] else a
    | None => []
    end in
  let cmd :=
    mkMetaCommand primary
      (strip match fn_doc f with
             | Some doc => if truthy doc then doc else ""
             | None => ""
             end)
      f alias_list in
  let commands := dict_set primary cmd (_meta_commands reg) in
  let by_alias := dict_set primary cmd (_meta_command_aliases reg) in
  let by_alias :=
    fold_left (fun d alias => dict_set alias cmd d) alias_list by_alias in
  mkRegistry commands by_alias.

(** The registrations of the module itself: [exit] and [help]. *)
Definition exit_function : PyFunction :=
  mkFunction "exit" (Some "Exit the application").

Definition help_function : PyFunction :=
  mkFunction "help" (Some "Show help information").

Definition module_registry : Registry :=
  _register None (Some ["h"; "?"]) help_function
    (_register None (Some ["quit"]) exit_function empty_registry).

(** [sorted(commands, key=lambda c: c.name)]: a stable sort; strings
    compare by code point, which is the order of their UTF-8 bytes. *)
Fixpoint insert_by_name (cmd : MetaCommand) (sorted : list MetaCommand)
  : list MetaCommand :=
  match sorted with
  | [] => [cmd]
  | c :: sorted' =>
      if String.leb (name cmd) (name c) then cmd :: c :: sorted'
      else c :: insert_by_name cmd sorted'
  end.

Definition sorted_by_name (commands : list MetaCommand) : list MetaCommand :=
  fold_right insert_by_name [] commands.

(** [text.rfind(ch)]: the highest index of [ch], or -1.  Indices count
    the bytes of the UTF-8 representation, here and in the slices. *)
Fixpoint rfind_from (i : Z) (ch : ascii) (text : string) (found : Z) : Z :=
  match text with
  | EmptyString => found
  | String c text' =>
      rfind_from (i + 1) ch text' (if (c =? ch)%char then i else found)
  end.

Definition rfind (ch : ascii) (text : string) : Z := rfind_from 0 ch text (-1).

(** [text[i:]] for [i >= 0] *)
Fixpoint slice_from (i : nat) (text : string) : string :=
  match i, text with
  | O, _ => text
  | S i', String _ text' => slice_from i' text'
  | S _, EmptyString => EmptyString
  end.

(** [len(text)]: the number of code points, that is of bytes that do not
    continue a sequence. *)
Fixpoint len (text : string) : Z :=
  match text with
  | EmptyString => 0
  | String c text' =>
      (if continuation (N_of_ascii c) then 0 else 1) + len text'
  end.

Record Completion : Type := mkCompletion {
  text : string;
  start_position : Z;
  display : string;
  display_meta : string
}.

(** [MetaCommandCompleter.get_completions(document, complete_event)]:
    the completions it yields for [document.text_before_cursor]. *)
Definition get_completions (reg : Registry) (text_before_cursor : string)
  : list Completion :=
  let text := text_before_cursor in
  let last_space := rfind " "%char text in
  let token := slice_from (Z.to_nat (last_space + 1)) text in
  if negb (String.prefix "/" token) then []
  else
    let typed := slice_from 1 token in
    let typed_lower := lower typed in
    flat_map
      (fun cmd =>
         let names := name cmd :: aliases cmd in
         if (typed =? "")%string
            || existsb (fun n => String.prefix typed_lower (lower n)) names
         then [ mkCompletion ("/" ++ name cmd)%string (- len token)
                             (slash_name cmd) (description cmd) ]
         else [])
      (sorted_by_name (get_meta_commands reg)).

End Strings.

End MetaCmd.

(** ** [ShellApp.run], [_soul_run] and [_run_meta_command] in
       [kimi_cli/ui/shell/__init__.py] *)

Module ShellRun.

(** [s.split(" ")]: the pieces between single spaces; never empty. *)
Fixpoint split_spaces (s : string) : list string :=
  match s with
  | EmptyString => [EmptyString]
  | String c s' =>
      if (c =? " ")%char then EmptyString :: split_spaces s'
      else
        match split_spaces s' with
        | [] => [String c EmptyString]
        | piece :: pieces => String c piece :: pieces
        end
  end.

(** What [session.prompt()] comes to. *)
Inductive Prompt : Type :=
| Line (text : string)
| PromptKeyboardInterrupt
| PromptEOFError.

(** How [asyncio.run(self.soul.run(user_input, self._visualize))] ends,
    by the [except] clause that takes it. *)
Inductive SoulRun : Type :=
| Completed
| ChatProviderError (e : string)
| MaxStepsReached (n_steps : Z)
| KeyboardInterrupt
| OtherException (e : string).

(** What the shell does that can be seen from outside, in order. *)
Inductive Action : Type :=
| Print (line : string)                        (* [console.print(line)] *)
| PrintPanel (body : string)                   (* [console.print(Panel(body, ...))] *)
| RunSoul (user_input : string)                (* [self.soul.run(user_input, ...)] *)
| CallMeta (name : string) (args : list string).  (* [command.func(self, args)] *)

(** The result of [run]: it returns, an exception leaves it, or it
    waits at the prompt for good. *)
Inductive RunResult : Type :=
| Exited (ok : bool)
| Crashed (exception : string)
| Waiting.

Section Shell.

(** [str.strip()]; the soul, with its name and its runs; the table of
    meta commands of [kimi_cli.ui.shell.metacmd] with what a call of a
    command does to the soul, [Some e] when it raises [e]. *)
Variable strip : string -> string.
Variable Soul : Type.
Variable soul_name : Soul -> string.
Variable soul_run : Soul -> string -> SoulRun * Soul.
Variable Command : Type.
Variable get_meta_command : string -> option Command.
Variable call : Command -> list string -> Soul -> option string * Soul.

(** [ShellApp._soul_run(user_input)] *)
Definition _soul_run (soul : Soul) (user_input : string)
  : bool * Soul * list Action :=
  match soul_run soul user_input with
  | (Completed, soul) => (true, soul, [RunSoul user_input])
  | (ChatProviderError e, soul) =>
      (false, soul,
       [ RunSoul user_input;
         Print ("[bold red]LLM provider error: " ++ e ++ "[/bold red]")%string ])
  | (MaxStepsReached n_steps, soul) =>
      (false, soul,
       [ RunSoul user_input;
         Print ("[bold yellow]Max steps reached: " ++ str_int n_steps
                  ++ "[/bold yellow]")%string ])
  | (KeyboardInterrupt, soul) =>
      (false, soul,
       [ RunSoul user_input; Print "[bold red]Interrupted by user[/bold red]" ])
  | (OtherException e, soul) =>
      (false, soul,
       [ RunSoul user_input;
         Print ("[bold red]Unknown error: " ++ e ++ "[/bold red]")%string ])
  end.

(** [ShellApp._run_meta_command(command_str)]; [Some e] when the command
    raises [e]. *)
Definition _run_meta_command (soul : Soul) (command_str : string)
  : option string * Soul * list Action :=
  let parts := split_spaces command_str in
  let command_name := hd EmptyString parts in
  let command_args := tl parts in
  match get_meta_command command_name with
  | None =>
      (None, soul,
       [ Print ("Meta command /" ++ command_name ++ " not found")%string ])
  | Some command =>
      let '(raised, soul) := call command command_args soul in
      (raised, soul, [ CallMeta command_name command_args ])
  end.

Definition exit_words : list string := ["exit"; "quit"; "/exit"; "/quit"].

(** The [while True] of [run], against the prompts to come. *)
Fixpoint prompt_loop (prompts : list Prompt) (soul : Soul)
  : RunResult * Soul * list Action :=
  match prompts with
  | [] => (Waiting, soul, [])
  | PromptKeyboardInterrupt :: prompts =>
      let '(r, soul, actions) := prompt_loop prompts soul in
      (r, soul,
       Print "[grey30]Tip: press Ctrl-D or send 'exit' to quit[/grey30]"
         :: actions)
  | PromptEOFError :: _ => (Exited true, soul, [Print "Bye!"])
  | Line text :: prompts =>
      let user_input := strip text in
      if negb (truthy user_input) then prompt_loop prompts soul
      else if existsb (String.eqb user_input) exit_words
      then (Exited true, soul, [Print "Bye!"])
      else if String.prefix "/" user_input then
        match _run_meta_command soul (MetaCmd.slice_from 1 user_input) with
        | (Some e, soul, done) => (Crashed e, soul, done)
        | (None, soul, done) =>
            let '(r, soul, actions) := prompt_loop prompts soul in
            (r, soul, done ++ actions)
        end
      else
        let '(_, soul, done) := _soul_run soul user_input in
        let '(r, soul, actions) := prompt_loop prompts soul in
        (r, soul, done ++ actions)
  end.

(** The welcome text of the panel. *)
Definition welcome (soul : Soul) (welcome_info : list (string * string))
  : string :=
  let welcome := ("[bold]Welcome to " ++ soul_name soul ++ "![/bold]")%string in
  if is_empty welcome_info then welcome
  else
    (welcome ++ MessageText.newline ++ MessageText.newline
       ++ String.concat MessageText.newline
            (map (fun kv => "[grey30]" ++ fst kv ++ ": " ++ snd kv ++ "[/grey30]")
                 welcome_info))%string.

(** [ShellApp.run(command)].  The prompt session is taken to be set up:
    the construction of [PromptSession] (with [getpass.getuser()]), which
    comes before the welcome panel, is left out, and with it the
    exceptions it can raise. *)
Definition run (soul : Soul) (welcome_info : list (string * string))
    (command : option string) (prompts : list Prompt)
  : RunResult * Soul * list Action :=
  match command with
  | Some command =>
      let '(ok, soul, done) := _soul_run soul command in
      (Exited ok, soul, done)
  | None =>
      let panel := PrintPanel (welcome soul welcome_info) in
      let '(r, soul, actions) := prompt_loop prompts soul in
      (r, soul, Print "" :: panel :: Print "" :: actions)
  end.

End Shell.

End ShellRun.

(** ** What the visualizer draws, read off the stream

    A second reading of the two loops of [_visualize], by one recursion
    over the events; the loops are compared with it below. *)

Module VisualTrace.

Import ShellApp.

(** What a step view is asked to draw for one event. *)
Definition drawn (event : Event) : list Render :=
  match event with
  | Content (TextPart text) => [AppendText text]
  | Content (OtherPart class_name _) =>
      [AppendText ("[" ++ class_name ++ "]")%string]
  | Call tool_call => [AppendToolCall tool_call]
  | CallPart part => [AppendToolCallPart part]
  | Result tool_result => [AppendToolResult tool_result]
  | ContextUsageUpdate usage => [UpdateContextUsage usage]
  | _ => []
  end.

(** The renderings that show an event, as opposed to the spinner and the
    opening and closing of a step view. *)
Definition is_drawing (r : Render) : bool :=
  match r with
  | Spinner | EnterStep | Interrupt | Finish => false
  | _ => true
  end.

(** The screen from inside a step on, the current event first. *)
Fixpoint screen_in_step (events : list Event) : Screen :=
  match events with
  | [] => []
  | StepInterrupted :: _ => [Interrupt]
  | RunEnd :: _ => [Finish]
  | RunBegin :: _ => [Finish]
  | StepBegin _ :: events =>
      Finish :: Spinner
        :: match events with
           | [] => []
           | _ :: _ => EnterStep :: screen_in_step events
           end
  | event :: events => drawn event ++ screen_in_step events
  end.

End VisualTrace.

(** ** Runs of a command, read off the schedule

    The vocabulary for the statements about whole runs of the Bash tool
    below: what a schedule delivers on each stream, what it adds to the
    output, and when it is the run of a command to its exit. *)

Module BashRuns.











End BashRuns.

(** * Properties *)

(** ** Python truth values *)

Lemma truthy_true (s : string) : truthy s = true <-> s <> "".
Proof.
  destruct s; simpl; split; intro H; try discriminate; try reflexivity.
  now contradiction H.
Qed.

Lemma truthy_false (s : string) : truthy s = false <-> s = "".
Proof.
  destruct s; simpl; split; intro H; try discriminate; reflexivity.
Qed.

Lemma is_empty_filter {A} (f : A -> bool) (xs : list A) :
  is_empty (filter f xs) = negb (existsb f xs).
Proof.
  induction xs as [|x xs IH]; simpl; [reflexivity|].
  destruct (f x); simpl; [reflexivity | exact IH].
Qed.

Lemma filter_all {A} (f : A -> bool) (xs : list A) :
  forallb f xs = true -> filter f xs = xs.
Proof.
  induction xs as [|x xs IH]; simpl; [reflexivity|].
  destruct (f x); simpl; [|discriminate].
  intro H. now rewrite IH.
Qed.

Lemma existsb_negb_forallb {A} (f : A -> bool) (xs : list A) :
  existsb (fun x => negb (f x)) xs = negb (forallb f xs).
Proof.
  induction xs as [|x xs IH]; simpl; [reflexivity|].
  rewrite IH. now destruct (f x).
Qed.

(** ** The result translator *)

Section Translator.

Import MessageUtils.

Variable tool_result : ToolResult.

Let id := tr_tool_call_id tool_result.

(** The translation of an error, as one equation. *)
Lemma error_translation (e : ToolError) :
  tr_result tool_result = Error e ->
  err_message e <> "" ->
  tool_result_to_messages tool_result =
    Return [ mkMessage role_tool
               (system_message (err_message e)
                  :: if truthy (err_output e)
                     then [TextPart (err_output e)] else [])
               (Some id) ].
Proof.
  intros Hres Hmsg. unfold tool_result_to_messages. rewrite Hres.
  apply truthy_true in Hmsg. rewrite Hmsg. simpl.
  now destruct (truthy (err_output e)).
Qed.

(** The translation of a success, as one equation. *)
Lemma ok_translation (r : ToolOk) :
  tr_result tool_result = Ok r ->
  let content := tool_ok_to_message_content r in
  tool_result_to_messages tool_result =
    if forallb is_TextPart content
    then Return [ mkMessage role_tool content (Some id) ]
    else Return [ mkMessage role_tool
                    (filter is_TextPart content
                       ++ [system_message non_text_notice])
                    (Some id);
                  mkMessage role_user
                    (filter (fun p => negb (is_TextPart p)) content)
                    None ].
Proof.
  intros Hres content. unfold tool_result_to_messages. rewrite Hres.
  fold content. cbv zeta.
  rewrite is_empty_filter, existsb_negb_forallb, negb_involutive.
  destruct (forallb is_TextPart content) eqn:Hall; [|reflexivity].
  now rewrite (filter_all _ _ Hall).
Qed.

End Translator.

Import MessageUtils.

(** The non-text parts of the content of a success are those of its
    output: the message and the sentinel are text. *)
Lemma non_text_parts_of_output (r : ToolOk) :
  filter (fun p => negb (is_TextPart p)) (tool_ok_to_message_content r) =
    match ok_output r with
    | OutStr _ => []
    | OutPart part => if is_TextPart part then [] else [part]
    | OutSeq parts => filter (fun p => negb (is_TextPart p)) parts
    end.
Proof.
  unfold tool_ok_to_message_content.
  destruct (truthy (ok_message r)); destruct (ok_output r) as [text | part | parts];
    simpl;
    try (destruct (truthy text); reflexivity);
    try (destruct (is_TextPart part); reflexivity);
    try reflexivity.
  destruct parts as [|part parts]; reflexivity.
Qed.

(** C6.  A result that carries an error with a non-empty message
    translates to exactly one message, of role tool: its content is the
    error message as a system-tagged text part, followed by the raw
    output as a text part of its own when that output is non-empty, and
    by nothing when it is empty. *)
Theorem error_path_one_tool_message :
  forall (tool_result : ToolResult) (e : ToolError),
    tr_result tool_result = Error e ->
    err_message e <> "" ->
    exists content,
      tool_result_to_messages tool_result =
        Return [ mkMessage role_tool content
                   (Some (tr_tool_call_id tool_result)) ]
      /\ (err_output e <> "" ->
          content = [ TextPart ("<system>" ++ err_message e ++ "</system>");
                      TextPart (err_output e) ])
      /\ (err_output e = "" ->
          content = [ TextPart ("<system>" ++ err_message e ++ "</system>") ]).
Proof.
  intros tool_result e Hres Hmsg.
  eexists. split.
  - apply (error_translation tool_result e Hres Hmsg).
  - split; intro Hout.
    + apply truthy_true in Hout. now rewrite Hout.
    + apply truthy_false in Hout. now rewrite Hout.
Qed.

Lemma error_path_one_tool_message_witness :
  exists content,
    tool_result_to_messages
      (mkToolResult "call_1"
         (Error (mkToolError "partial output" "Command failed" "Failed"))) =
      Return [ mkMessage role_tool content (Some "call_1") ]
    /\ ("partial output" <> "" ->
        content = [ TextPart "<system>Command failed</system>";
                    TextPart "partial output" ])
    /\ ("partial output" = "" ->
        content = [ TextPart "<system>Command failed</system>" ]).
Proof.
  apply (error_path_one_tool_message
           (mkToolResult "call_1"
              (Error (mkToolError "partial output" "Command failed" "Failed")))
           (mkToolError "partial output" "Command failed" "Failed")).
  - reflexivity.
  - simpl. discriminate.
Defined.

(** C7.  A successful result whose content has a non-text part
    translates to exactly two messages: a tool message with all the text
    parts, in order, and then the fixed notice; and a user message with
    the non-text parts only.  A successful result whose content is all
    text translates to exactly one tool message. *)
Theorem ok_path_splits_non_text :
  forall (tool_result : ToolResult) (r : ToolOk),
    tr_result tool_result = Ok r ->
    let content := tool_ok_to_message_content r in
    (Exists (fun p => is_TextPart p = false) content ->
     tool_result_to_messages tool_result =
       Return [ mkMessage role_tool
                  (filter is_TextPart content
                     ++ [system_message non_text_notice])
                  (Some (tr_tool_call_id tool_result));
                mkMessage role_user
                  (filter (fun p => negb (is_TextPart p)) content)
                  None ])
    /\ (Forall (fun p => is_TextPart p = true) content ->
        tool_result_to_messages tool_result =
          Return [ mkMessage role_tool content
                     (Some (tr_tool_call_id tool_result)) ]).
Proof.
  intros tool_result r Hres content.
  pose proof (ok_translation tool_result r Hres) as Heq.
  cbv zeta in Heq. fold content in Heq.
  split; intro H.
  - rewrite Heq.
    destruct (forallb is_TextPart content) eqn:Hall; [|reflexivity].
    exfalso. rewrite forallb_forall in Hall.
    apply Exists_exists in H. destruct H as [p [Hin Hp]].
    rewrite (Hall p Hin) in Hp. discriminate.
  - rewrite Heq.
    replace (forallb is_TextPart content) with true; [reflexivity|].
    symmetry. apply forallb_forall. rewrite Forall_forall in H. exact H.
Qed.

Lemma ok_path_splits_non_text_witness :
  tool_result_to_messages
    (mkToolResult "call_2"
       (Ok (mkToolOk (OutSeq [ TextPart "a chart:";
                               OtherPart "ImageURLPart" "file:///chart.png" ])
                     "" ""))) =
    Return [ mkMessage role_tool
               [ TextPart "a chart:";
                 TextPart "<system>Tool output contains non-text parts. Non-text parts are sent as a user message below.</system>" ]
               (Some "call_2");
             mkMessage role_user
               [ OtherPart "ImageURLPart" "file:///chart.png" ] None ].
Proof.
  apply (ok_path_splits_non_text
           (mkToolResult "call_2"
              (Ok (mkToolOk (OutSeq [ TextPart "a chart:";
                                      OtherPart "ImageURLPart" "file:///chart.png" ])
                            "" "")))
           _ eq_refl).
  simpl. apply Exists_cons_tl. apply Exists_cons_hd. reflexivity.
Defined.

(** C8.  A successful result with empty output (the empty string or an
    empty sequence of parts) and no message translates to exactly one
    tool message whose only content is the system-tagged sentinel
    "Tool output is empty."; and no tool result at all translates to
    the empty list of messages. *)
Theorem empty_output_sentinel :
  (forall (id : string) (r : ToolOk),
      ok_message r = "" ->
      ok_output r = OutStr "" \/ ok_output r = OutSeq [] ->
      tool_result_to_messages (mkToolResult id (Ok r)) =
        Return [ mkMessage role_tool
                   [ TextPart "<system>Tool output is empty.</system>" ]
                   (Some id) ])
  /\ (forall tool_result : ToolResult,
         tool_result_to_messages tool_result <> Return []).
Proof.
  split.
  - intros id r Hmsg Hout.
    unfold tool_result_to_messages, tool_ok_to_message_content. simpl.
    rewrite Hmsg. destruct Hout as [-> | ->]; reflexivity.
  - intros [id [r | e]]; unfold tool_result_to_messages; simpl.
    + destruct (is_empty _); discriminate.
    + destruct (truthy (err_message e)); simpl; discriminate.
Qed.

Lemma empty_output_sentinel_witness :
  tool_result_to_messages (mkToolResult "call_3" (Ok (mkToolOk (OutStr "") "" ""))) =
    Return [ mkMessage role_tool
               [ TextPart "<system>Tool output is empty.</system>" ]
               (Some "call_3") ]
  /\ tool_result_to_messages (mkToolResult "call_3" (Ok (mkToolOk (OutSeq []) "" ""))) =
       Return [ mkMessage role_tool
                  [ TextPart "<system>Tool output is empty.</system>" ]
                  (Some "call_3") ].
Proof.
  split.
  - apply (proj1 empty_output_sentinel "call_3" (mkToolOk (OutStr "") "" "")).
    + reflexivity.
    + left. reflexivity.
  - apply (proj1 empty_output_sentinel "call_3" (mkToolOk (OutSeq []) "" "")).
    + reflexivity.
    + right. reflexivity.
Defined.

(** C9.  The translator is partial on errors.  An error with an empty
    message makes it fail the assertion "ToolError should have a
    message" instead of returning; this is the only way it raises: an
    error with a non-empty message, and every success, gives a list of
    messages. *)
Theorem error_needs_message :
  (exists tool_result,
      tool_result_to_messages tool_result =
        Raise (AssertionError "ToolError should have a message"))
  /\ (forall (tool_result : ToolResult) (e : ToolError),
         tr_result tool_result = Error e ->
         err_message e = "" ->
         tool_result_to_messages tool_result =
           Raise (AssertionError "ToolError should have a message"))
  /\ (forall (tool_result : ToolResult) (e : ToolError),
         tr_result tool_result = Error e ->
         err_message e <> "" ->
         exists messages,
           tool_result_to_messages tool_result = Return messages)
  /\ (forall (tool_result : ToolResult) (r : ToolOk),
         tr_result tool_result = Ok r ->
         exists messages,
           tool_result_to_messages tool_result = Return messages).
Proof.
  split; [|split; [|split]].
  - exists (mkToolResult "call_4" (Error (mkToolError "out" "" "brief"))).
    reflexivity.
  - intros tool_result e Hres Hmsg.
    unfold tool_result_to_messages. rewrite Hres, Hmsg. reflexivity.
  - intros tool_result e Hres Hmsg.
    eexists. apply (error_translation tool_result e Hres Hmsg).
  - intros tool_result r Hres.
    rewrite (ok_translation tool_result r Hres).
    destruct (forallb _ _); eexists; reflexivity.
Qed.

Lemma error_needs_message_witness :
  tool_result_to_messages
    (mkToolResult "call_4" (Error (mkToolError "out" "" "brief"))) =
    Raise (AssertionError "ToolError should have a message")
  /\ exists messages,
       tool_result_to_messages
         (mkToolResult "call_4" (Error (mkToolError "out" "boom" "brief"))) =
         Return messages.
Proof.
  destruct error_needs_message as [_ [Hraise [Hreturn _]]].
  split.
  - apply (Hraise (mkToolResult "call_4" (Error (mkToolError "out" "" "brief")))
                  (mkToolError "out" "" "brief")); reflexivity.
  - apply (Hreturn (mkToolResult "call_4" (Error (mkToolError "out" "boom" "brief")))
                   (mkToolError "out" "boom" "brief")).
    + reflexivity.
    + simpl. discriminate.
Defined.

(** C10.  Whatever the result, every tool message of its translation
    carries the call id of the result, and every user message (there is
    one only when non-text parts are split off, and it comes last)
    carries no call id. *)
Theorem correlation_id_preserved :
  forall (tool_result : ToolResult) (messages : list Message),
    tool_result_to_messages tool_result = Return messages ->
    Forall (fun m =>
              match role m with
              | role_tool => tool_call_id m = Some (tr_tool_call_id tool_result)
              | role_user => tool_call_id m = None
              | _ => False
              end) messages
    /\ ((exists m, messages = [m] /\ role m = role_tool)
        \/ (exists m1 m2, messages = [m1; m2]
                          /\ role m1 = role_tool /\ role m2 = role_user)).
Proof.
  intros tool_result messages.
  destruct (tr_result tool_result) as [r | e] eqn:Hres.
  - rewrite (ok_translation tool_result r Hres).
    destruct (forallb _ _); intro H; injection H as <-.
    + split; [repeat constructor|].
      left. eexists. split; reflexivity.
    + split; [repeat constructor|].
      right. do 2 eexists. repeat split.
  - unfold tool_result_to_messages. rewrite Hres.
    destruct (truthy (err_message e)); simpl; [|discriminate].
    intro H; injection H as <-.
    split; [repeat constructor|].
    left. eexists. split; reflexivity.
Qed.

Lemma correlation_id_preserved_witness :
  Forall (fun m =>
            match role m with
            | role_tool => tool_call_id m = Some "call_5"
            | role_user => tool_call_id m = None
            | _ => False
            end)
    [ mkMessage role_tool
        [ TextPart "<system>Tool output contains non-text parts. Non-text parts are sent as a user message below.</system>" ]
        (Some "call_5");
      mkMessage role_user [ OtherPart "ImageURLPart" "file:///a.png" ] None ].
Proof.
  apply (correlation_id_preserved
           (mkToolResult "call_5"
              (Ok (mkToolOk (OutPart (OtherPart "ImageURLPart" "file:///a.png"))
                            "" "")))).
  reflexivity.
Defined.

(** ** The Bash tool *)

Import BashTool.

(** The decoder on some lines: two, three and four byte sequences; an
    overlong form, a surrogate, a code point past U+10FFFF, a stray
    continuation byte, a truncated sequence. *)
Example decode_accepts :
  forallb well_formed_utf8
    [ list_byte_of_string "plain ascii";
      [Byte.xc3; Byte.xa9];
      [Byte.xe2; Byte.x82; Byte.xac];
      [Byte.xf0; Byte.x9f; Byte.x98; Byte.x80] ] = true.
Proof. reflexivity. Qed.

Example decode_rejects :
  existsb well_formed_utf8
    [ [Byte.xc0; Byte.x80];
      [Byte.xed; Byte.xa0; Byte.x80];
      [Byte.xf4; Byte.x90; Byte.x80; Byte.x80];
      [Byte.x80];
      [Byte.xe2; Byte.x82];
      [Byte.xff] ] = false.
Proof. reflexivity. Qed.

(** A line over the limit of the reader: the [ValueError] of [readline]
    leaves the call, and the child is left running. *)
Example overlong_line_raises :
  Bash_call "head -c 70000 /dev/zero" 60
    [Readline Stderr []; ReadlineOverrun Stdout; ProcessExits 0] =
    (Raised ValueError, mkProcess false None).
Proof. reflexivity. Qed.

(** A line that does not decode: the error of the callback leaves the
    call; it is not a tool outcome. *)
Example undecodable_line_raises :
  Bash_call "printf '\377'" 60 [Readline Stdout [Byte.xff]; Readline Stdout []] =
    (Raised UnicodeDecodeError, mkProcess false None).
Proof. reflexivity. Qed.

Section Gather.

Context {Buf : Type}.
Variables out_cb err_cb : bytes -> Buf -> result Buf.

Let gather := gather_read_streams out_cb err_cb.

(** The case analysis of one round of [gather_read_streams] on a
    [Readline] occurrence, as the proofs below repeat it. *)
Ltac readline_cases s line buf IH :=
  match goal with
  | |- context [negb ?open] => destruct (negb open); [now apply IH|]
  | H : context [negb ?open] |- _ => destruct (negb open); [now apply IH|]
  end;
  destruct (is_empty line); [destruct s; now apply IH|];
  destruct (cb_of out_cb err_cb s line buf); [now apply IH|].

(** While the readers are pending, the timeout and a cancellation
    request end the wait with their exception, and leave the buffer as
    the callbacks made it. *)
Lemma pending_then_interrupt (o : Occurrence) (e : exn) (pre rest : schedule) :
  (o = TimeoutElapses /\ e = TimeoutError)
  \/ (o = CancelRequest /\ e = CancelledError) ->
  forall out_open err_open buf p buf' p',
    gather pre out_open err_open buf p = Pending buf' p' ->
    gather (pre ++ o :: rest) out_open err_open buf p = Failed e buf' p'.
Proof.
  subst gather. intro Hoe.
  induction pre as [|o' pre IH]; intros out_open err_open buf p buf' p' H;
    simpl in *;
    (destruct (negb out_open && negb err_open); [discriminate|]).
  - injection H as -> ->.
    now destruct Hoe as [[-> ->] | [-> ->]].
  - destruct o' as [s line | | | code | s]; try discriminate.
    + readline_cases s line buf IH. discriminate.
    + now apply IH.
    + destruct (negb (match s with Stdout => out_open | Stderr => err_open end));
        [now apply IH | discriminate].
Qed.

Lemma pending_then_timeout (pre rest : schedule) :
  forall out_open err_open buf p buf' p',
    gather pre out_open err_open buf p = Pending buf' p' ->
    gather (pre ++ TimeoutElapses :: rest) out_open err_open buf p =
      Failed TimeoutError buf' p'.
Proof. apply pending_then_interrupt. now left. Qed.

Lemma pending_then_cancel (pre rest : schedule) :
  forall out_open err_open buf p buf' p',
    gather pre out_open err_open buf p = Pending buf' p' ->
    gather (pre ++ CancelRequest :: rest) out_open err_open buf p =
      Failed CancelledError buf' p'.
Proof. apply pending_then_interrupt. now right. Qed.

(** Reading never kills the child. *)
Lemma gather_keeps_alive (sched : schedule) :
  forall out_open err_open buf p,
    killed p = false ->
    match gather sched out_open err_open buf p with
    | Completed _ _ p' | Failed _ _ p' | Pending _ p' => killed p' = false
    end.
Proof.
  subst gather.
  assert (Hexits : forall code p, killed p = false -> killed (exits code p) = false).
  { intros code p Hp. unfold exits. now destruct (returncode p). }
  induction sched as [|o sched IH]; intros out_open err_open buf p Hp; simpl;
    (destruct (negb out_open && negb err_open); [exact Hp|]);
    [exact Hp|].
  destruct o as [s line | | | code | s]; try exact Hp.
  - readline_cases s line buf IH. exact Hp.
  - apply IH. now apply Hexits.
  - destruct (negb (match s with Stdout => out_open | Stderr => err_open end));
      [now apply IH | exact Hp].
Qed.


End Gather.

(** Lines that decode are appended to the output, whichever stream they
    come from, as long as both streams are open. *)
Lemma gather_appends_lines (lines : list (Stream * bytes)) (rest : schedule) :
  Forall (fun l => is_empty (snd l) = false
                   /\ well_formed_utf8 (snd l) = true) lines ->
  forall output p,
    gather_read_streams stdout_cb stderr_cb
      (map (fun l => Readline (fst l) (snd l)) lines ++ rest)
      true true output p =
    gather_read_streams stdout_cb stderr_cb rest true true
      (output ++ map (fun l => string_of_list_byte (snd l)) lines) p.
Proof.
  induction 1 as [|[s line] lines [Hne Hwf] _ IH]; intros output p.
  - simpl map. now rewrite app_nil_r.
  - simpl in *. rewrite Hne.
    assert (Hcb : cb_of stdout_cb stderr_cb s line output =
                  Return (output ++ [string_of_list_byte line])).
    { destruct s; unfold cb_of, stdout_cb, stderr_cb, decode; now rewrite Hwf. }
    rewrite Hcb. destruct s; simpl; rewrite IH, <- app_assoc; reflexivity.
Qed.

(** A schedule of lines that decode, with both streams open at the end,
    leaves the wait pending with exactly these lines in the buffer. *)
Lemma reads_leave_pending (lines : list (Stream * bytes)) :
  Forall (fun l => is_empty (snd l) = false
                   /\ well_formed_utf8 (snd l) = true) lines ->
  gather_read_streams stdout_cb stderr_cb
    (map (fun l => Readline (fst l) (snd l)) lines) true true [] spawn =
  Pending (map (fun l => string_of_list_byte (snd l)) lines) spawn.
Proof.
  intro H.
  rewrite <- (app_nil_r (map _ lines)).
  rewrite (gather_appends_lines lines [] H). reflexivity.
Qed.

(** A command that prints lines that decode, closes both streams and
    exits: the call returns the exit code with these lines in the buffer,
    and the child is not killed. *)
Lemma reads_then_exit (command : string) (timeout code : Z)
    (lines : list (Stream * bytes)) :
  Forall (fun l => is_empty (snd l) = false
                   /\ well_formed_utf8 (snd l) = true) lines ->
  _stream_subprocess stdout_cb stderr_cb command timeout
    (map (fun l => Readline (fst l) (snd l)) lines
       ++ [Readline Stdout []; Readline Stderr []; ProcessExits code]) [] =
  (Returned code, map (fun l => string_of_list_byte (snd l)) lines,
   mkProcess false (Some code)).
Proof.
  intro H. unfold _stream_subprocess.
  rewrite (gather_appends_lines lines _ H). reflexivity.
Qed.

(** The timeout path.  When the timeout elapses while the tool is still
    reading the streams of the child, the tool kills the child and
    returns an error: its message is "Command killed by timeout (Ts)",
    its brief "Killed by timeout (Ts)", with T the timeout of the call,
    and its output is the text of the lines accumulated until then, in
    the order they were read.  In particular, after any lines that
    decode, the output is their concatenation. *)
Lemma timeout_path_kills_and_reports :
  forall (command : string) (timeout : Z) (pre rest : schedule),
    (forall (output : list string) (process : Process),
        gather_read_streams stdout_cb stderr_cb pre true true [] spawn =
          Pending output process ->
        Bash_call command timeout (pre ++ TimeoutElapses :: rest) =
          (Returned (Error (mkToolError
             (join output)
             ("Command killed by timeout (" ++ str_int timeout ++ "s)")%string
             ("Killed by timeout (" ++ str_int timeout ++ "s)")%string)),
           kill process)
        /\ killed (kill process) = true)
    /\ (forall lines : list (Stream * bytes),
           pre = map (fun l => Readline (fst l) (snd l)) lines ->
           Forall (fun l => is_empty (snd l) = false
                            /\ well_formed_utf8 (snd l) = true) lines ->
           Bash_call command timeout (pre ++ TimeoutElapses :: rest) =
             (Returned (Error (mkToolError
                (join (map (fun l => string_of_list_byte (snd l)) lines))
                ("Command killed by timeout (" ++ str_int timeout ++ "s)")%string
                ("Killed by timeout (" ++ str_int timeout ++ "s)")%string)),
              mkProcess true None)).
Proof.
  intros command timeout pre rest.
  assert (Hgen : forall output process,
             gather_read_streams stdout_cb stderr_cb pre true true [] spawn =
               Pending output process ->
             Bash_call command timeout (pre ++ TimeoutElapses :: rest) =
               (Returned (Error (mkToolError
                  (join output)
                  ("Command killed by timeout (" ++ str_int timeout ++ "s)")%string
                  ("Killed by timeout (" ++ str_int timeout ++ "s)")%string)),
                kill process)).
  { intros output process Hpending.
    unfold Bash_call, _stream_subprocess.
    rewrite (pending_then_timeout _ _ pre rest _ _ _ _ _ _ Hpending).
    reflexivity. }
  split.
  - intros output process Hpending. split; [now apply Hgen | reflexivity].
  - intros lines -> Hlines.
    apply (Hgen _ _ (reads_leave_pending lines Hlines)).
Qed.

(** [sleep 5] with a timeout of 1, after one line of output. *)
Example timeout_path_sleep :
  Bash_call "echo partial; sleep 5" 1
    ([Readline Stdout (list_byte_of_string "partial")] ++ [TimeoutElapses]) =
    (Returned (Error (mkToolError "partial"
                        "Command killed by timeout (1s)"
                        "Killed by timeout (1s)")),
     mkProcess true None).
Proof.
  apply (proj2 (timeout_path_kills_and_reports "echo partial; sleep 5" 1
                  [Readline Stdout (list_byte_of_string "partial")] [])
               [(Stdout, list_byte_of_string "partial")]).
  - reflexivity.
  - repeat constructor.
Qed.

(** C3.  What the code does for a command that closes its output
    streams and runs on beyond the timeout: both readers see the end of
    their stream, [wait_for] returns, and the tool then waits for the
    exit of the child with no timeout at all.  The child is not killed;
    the call returns when the child exits, with the outcome of a normal
    exit.  Here: [exec >/dev/null 2>&1; sleep 5] with a timeout of 1. *)
Theorem timeout_not_enforced_after_eof :
  (forall (command : string) (timeout code : Z) (rest : schedule),
      Bash_call command timeout
        (Readline Stdout [] :: Readline Stderr []
           :: TimeoutElapses :: ProcessExits code :: rest) =
        (Returned
           (if (code =? 0)%Z
            then Ok (mkToolOk (OutStr "") "Command executed successfully." "")
            else Error (mkToolError ""
                   ("Command failed with exit code: " ++ str_int code)%string
                   ("Failed with exit code: " ++ str_int code)%string)),
         mkProcess false (Some code)))
  /\ Bash_call "exec >/dev/null 2>&1; sleep 5" 1
       [ Readline Stdout []; Readline Stderr [];
         TimeoutElapses; ProcessExits 0 ] =
       (Returned (Ok (mkToolOk (OutStr "") "Command executed successfully." "")),
        mkProcess false (Some 0%Z)).
Proof.
  split; [|reflexivity].
  intros command timeout code rest.
  unfold Bash_call, _stream_subprocess. cbn.
  destruct (code =? 0)%Z; reflexivity.
Qed.


Import BashRuns.















(** C2.  What the code does when the task is cancelled while the tool
    reads the streams of the child: [CancelledError] leaves the call,
    and the child has not been killed.  Only [TimeoutError] is caught
    around the wait. *)
Theorem cancellation_skips_kill :
  forall (command : string) (timeout : Z) (pre rest : schedule)
         (output : list string) (process : Process),
    gather_read_streams stdout_cb stderr_cb pre true true [] spawn =
      Pending output process ->
    Bash_call command timeout (pre ++ CancelRequest :: rest) =
      (Raised CancelledError, process)
    /\ killed process = false.
Proof.
  intros command timeout pre rest output process Hpending.
  split.
  - unfold Bash_call, _stream_subprocess.
    rewrite (pending_then_cancel _ _ pre rest _ _ _ _ _ _ Hpending).
    reflexivity.
  - pose proof (gather_keeps_alive stdout_cb stderr_cb pre true true [] spawn
                  eq_refl) as Halive.
    rewrite Hpending in Halive. exact Halive.
Qed.

(** [sleep 5] with the default timeout, cancelled after a line of
    output. *)
Lemma cancellation_skips_kill_witness :
  Bash_call "echo started; sleep 5" 60
    ([Readline Stdout (list_byte_of_string "started")] ++ [CancelRequest]) =
    (Raised CancelledError, mkProcess false None)
  /\ killed (mkProcess false None) = false.
Proof.
  apply (cancellation_skips_kill "echo started; sleep 5" 60
           [Readline Stdout (list_byte_of_string "started")] []
           ["started"] (mkProcess false None)).
  reflexivity.
Defined.

(** ** The parameter schema of the Bash tool *)

Import BashSchema.

(** C5.  What the code declares for the timeout: the default is 60, in
    the schema and in the signature; the schema has no maximum, so that
    every number passes validation and reaches the body as the timeout
    of the call, 301 as well as any other. *)
Theorem timeout_schema_unbounded :
  at_path ["properties"; "timeout"; "default"] parameters = Some (JNumber 60)
  /\ default_timeout = 60%Z
  /\ (forall command : string,
         call (JObject [("command", JString command)]) = Invoked command 60)
  /\ at_path ["properties"; "timeout"; "maximum"] parameters = None
  /\ (forall (command : string) (n : Z),
         validate parameters
           (JObject [("command", JString command); ("timeout", JNumber n)]) = true
         /\ call (JObject [("command", JString command); ("timeout", JNumber n)]) =
              Invoked command n)
  /\ call (JObject [("command", JString "sleep 400"); ("timeout", JNumber 301)]) =
       Invoked "sleep 400" 301.
Proof.
  repeat split; reflexivity.
Qed.

(** ** The visualizer *)

Import ShellApp.

(** One step of visualization takes renderable events off the queue and
    stops at the first event that is none, without changing how the
    stream ends. *)
Lemma step_loop_spec (queue : EventQueue) :
  forall event step,
    match step_loop event queue step with
    | Broke e q _ =>
        outcome_of_stream (event :: queue) = outcome_of_stream (e :: q)
        /\ (List.length q <= List.length queue)%nat
        /\ match e with
           | RunBegin | RunEnd | StepBegin _ | StepInterrupted => True
           | _ => False
           end
    | Starved _ => outcome_of_stream (event :: queue) = Suspended
    end.
Proof.
  induction queue as [|event' queue IH]; intros event step.
  - destruct event as [| | | | |[|]| | |]; simpl; auto.
  - destruct event as [| | | | |[|]| | |];
      try (simpl; auto; fail);
      cbn [step_loop];
      match goal with
      | |- context [step_loop event' queue ?s] =>
          specialize (IH event' s); destruct (step_loop event' queue s)
      end;
      cbn [outcome_of_stream] in *;
      try exact IH;
      destruct IH as [Heq [Hlen He]];
      (repeat split; [exact Heq | simpl; lia | exact He]).
Qed.

(** With enough fuel for the events at hand, the outer loop ends the way
    the stream says. *)
Lemma visualize_loop_spec (fuel : nat) :
  forall queue screen,
    (List.length queue < fuel)%nat ->
    exists screen',
      visualize_loop fuel queue screen = Some (outcome_of_stream queue, screen').
Proof.
  induction fuel as [|fuel IH]; intros queue screen Hfuel; [lia|].
  destruct queue as [|event queue]; cbn [visualize_loop get].
  - eexists; reflexivity.
  - pose proof (step_loop_spec queue event (screen ++ [Spinner; EnterStep])) as Hstep.
    destruct (step_loop event queue (screen ++ [Spinner; EnterStep]))
      as [e q step | step].
    + destruct Hstep as [Heq [Hlen He]]. rewrite Heq.
      destruct e; try contradiction; simpl.
      * eexists; reflexivity.
      * eexists; reflexivity.
      * apply IH. simpl in Hfuel. lia.
      * eexists; reflexivity.
    + rewrite Hstep. eexists; reflexivity.
Qed.

(** After [RunBegin] and [StepBegin], [_visualize] ends the way the rest
    of the stream says; it never runs out of fuel. *)
Lemma visualize_spec (n : Z) (rest : list Event) :
  exists screen,
    _visualize (RunBegin :: StepBegin n :: rest) =
      Some (outcome_of_stream rest, screen).
Proof.
  unfold _visualize, visualize_with. simpl get. cbv iota beta.
  simpl negb. cbv iota.
  apply visualize_loop_spec. simpl. lia.
Qed.

Lemma visualize_total (event_queue : EventQueue) :
  exists outcome screen, _visualize event_queue = Some (outcome, screen).
Proof.
  destruct event_queue as [|e1 [|e2 rest]].
  - do 2 eexists; reflexivity.
  - destruct e1; do 2 eexists; reflexivity.
  - destruct e1; try (do 2 eexists; reflexivity).
    destruct e2; try (do 2 eexists; reflexivity).
    destruct (visualize_spec n rest) as [screen H].
    do 2 eexists; exact H.
Qed.

Lemma outcome_of_stream_terminal (body tail : list Event) (terminal : Event) :
  Forall (fun e => is_RunBegin e = false
                   /\ is_StepInterrupted e = false
                   /\ is_RunEnd e = false) body ->
  is_StepInterrupted terminal || is_RunEnd terminal = true ->
  outcome_of_stream (body ++ terminal :: tail) = Returned tt
  /\ outcome_of_stream body = Suspended.
Proof.
  intros Hbody Hterm.
  induction Hbody as [|e body [H1 [H2 H3]] _ IH]; simpl.
  - split; [|reflexivity]. destruct terminal; try discriminate; reflexivity.
  - destruct e; try discriminate; exact IH.
Qed.

(** The streams of a run.  On a stream that starts with [RunBegin] and
    [StepBegin] and has no further [RunBegin] before its first
    [StepInterrupted] or [RunEnd], the visualizer does not raise: it
    returns at that first terminal event, whatever follows it, and it
    keeps waiting when there is none. *)
Lemma visualize_never_raises_on_protocol :
  forall (n : Z) (body tail : list Event) (terminal : Event),
    Forall (fun e => is_RunBegin e = false
                     /\ is_StepInterrupted e = false
                     /\ is_RunEnd e = false) body ->
    is_StepInterrupted terminal || is_RunEnd terminal = true ->
    (exists screen,
        _visualize (RunBegin :: StepBegin n :: body ++ terminal :: tail) =
          Some (Returned tt, screen))
    /\ (exists screen,
           _visualize (RunBegin :: StepBegin n :: body) =
             Some (Suspended, screen)).
Proof.
  intros n body tail terminal Hbody Hterm.
  destruct (outcome_of_stream_terminal body tail terminal Hbody Hterm)
    as [Hreturn Hwait].
  split.
  - destruct (visualize_spec n (body ++ terminal :: tail)) as [screen H].
    exists screen. now rewrite H, Hreturn.
  - destruct (visualize_spec n body) as [screen H].
    exists screen. now rewrite H, Hwait.
Qed.

(** A run of two steps: text, a tool call and its result, then the end
    of the run; an event after the end is never looked at. *)
Lemma visualize_never_raises_on_protocol_witness :
  (exists screen,
      _visualize
        (RunBegin :: StepBegin 1
           :: [ Content (TextPart "let me look");
                Call (mkToolCall "call_1" "Bash" (Some "{}"));
                Result (mkToolResult "call_1"
                          (Ok (mkToolOk (OutStr "hi") "" "")));
                StepBegin 2;
                Content (OtherPart "ImageURLPart" "file:///a.png") ]
           ++ RunEnd :: [RunBegin]) =
        Some (Returned tt, screen))
  /\ (exists screen,
         _visualize
           (RunBegin :: StepBegin 1
              :: [ Content (TextPart "let me look");
                   Call (mkToolCall "call_1" "Bash" (Some "{}"));
                   Result (mkToolResult "call_1"
                             (Ok (mkToolOk (OutStr "hi") "" "")));
                   StepBegin 2;
                   Content (OtherPart "ImageURLPart" "file:///a.png") ]) =
           Some (Suspended, screen)).
Proof.
  apply (visualize_never_raises_on_protocol 1
           [ Content (TextPart "let me look");
             Call (mkToolCall "call_1" "Bash" (Some "{}"));
             Result (mkToolResult "call_1" (Ok (mkToolOk (OutStr "hi") "" "")));
             StepBegin 2;
             Content (OtherPart "ImageURLPart" "file:///a.png") ]
           [RunBegin] RunEnd).
  - repeat constructor.
  - reflexivity.
Defined.

(** C1.  The visualizer can raise, against its docstring ("This loop
    never raise any exception").  An event that the step loop does not
    render ends the step, and unless it is [StepInterrupted],
    [StepBegin] or [RunEnd] the assertion that follows fails: here a
    second [RunBegin], which is not ignored.  The two assertions at the
    start fail likewise on a stream that does not open with [RunBegin],
    [StepBegin]. *)
Lemma visualize_raises_on_unexpected_event :
  _visualize [ RunBegin; StepBegin 1; Content (TextPart "hi"); RunBegin ] =
    Some (Raised (AssertionError "expect a StepBegin or RunEnd"),
          [ Spinner; EnterStep; AppendText "hi"; Finish ])
  /\ _visualize [ StepBegin 1; RunEnd ] = Some (Raised (AssertionError ""), [])
  /\ ~ (forall (event_queue : EventQueue) (e : exn) (screen : Screen),
           _visualize event_queue <> Some (Raised e, screen)).
Proof.
  split; [reflexivity | split; [reflexivity|]].
  intro H.
  apply (H [ StepBegin 1; RunEnd ] (AssertionError "") []). reflexivity.
Qed.

(** * Further properties of the code *)

(** ** The translator, continued *)

Import MessageText.

(** The content of a success is never empty. *)
Lemma ok_content_not_empty (r : ToolOk) :
  tool_ok_to_message_content r <> [].
Proof.
  unfold tool_ok_to_message_content.
  destruct (truthy (ok_message r)); destruct (ok_output r) as [text | part | parts];
    simpl; try discriminate;
    try (destruct (truthy text); simpl; discriminate).
  destruct parts; simpl; discriminate.
Qed.

Lemma filter_not_empty {A} (f : A -> bool) (xs : list A) :
  existsb f xs = true -> filter f xs <> [].
Proof.
  induction xs as [|x xs IH]; simpl; [discriminate|].
  destruct (f x); simpl; [discriminate | exact IH].
Qed.

Lemma Forall_filter_true {A} (f : A -> bool) (xs : list A) :
  Forall (fun x => f x = true) (filter f xs).
Proof.
  induction xs as [|x xs IH]; simpl; [constructor|].
  destruct (f x) eqn:Hf; [constructor; assumption | exact IH].
Qed.

(** X1.  Tool messages are text only.  Whatever the result, every message of
    its translation has some content; a tool message holds text parts
    only and a user message non-text parts only. *)
Theorem tool_messages_text_only :
  forall (tool_result : ToolResult) (messages : list Message),
    tool_result_to_messages tool_result = Return messages ->
    Forall (fun m =>
              content m <> []
              /\ (role m = role_tool ->
                  Forall (fun p => is_TextPart p = true) (content m))
              /\ (role m = role_user ->
                  Forall (fun p => is_TextPart p = false) (content m)))
           messages.
Proof.
  intros tool_result messages.
  destruct (tr_result tool_result) as [r | e] eqn:Hres.
  - rewrite (ok_translation tool_result r Hres).
    pose proof (ok_content_not_empty r) as Hne.
    destruct (forallb is_TextPart (tool_ok_to_message_content r)) eqn:Hall;
      intro H; injection H as <-.
    + repeat constructor; simpl; try assumption; try discriminate.
      intros _. apply Forall_forall. now apply forallb_forall.
    + constructor; [|constructor; [|constructor]]; simpl; repeat split;
        try discriminate.
      * intro H. now apply app_eq_nil in H.
      * intros _. apply Forall_app. split; [apply Forall_filter_true|].
        repeat constructor.
      * apply filter_not_empty.
        rewrite existsb_negb_forallb, Hall. reflexivity.
      * intros _.
        pose proof (Forall_filter_true (fun p => negb (is_TextPart p))
                      (tool_ok_to_message_content r)) as Hf.
        eapply Forall_impl; [|exact Hf].
        intros p Hp. now apply negb_true_iff in Hp.
  - unfold tool_result_to_messages. rewrite Hres.
    destruct (truthy (err_message e)); simpl; [|discriminate].
    intro H; injection H as <-.
    repeat constructor; simpl; try discriminate.
    + now destruct (truthy (err_output e)).
    + intros _. destruct (truthy (err_output e)); repeat constructor.
Qed.

Lemma tool_messages_text_only_witness :
  Forall (fun m =>
            content m <> []
            /\ (role m = role_tool ->
                Forall (fun p => is_TextPart p = true) (content m))
            /\ (role m = role_user ->
                Forall (fun p => is_TextPart p = false) (content m)))
    [ mkMessage role_tool
        [ TextPart "<system>Tool output contains non-text parts. Non-text parts are sent as a user message below.</system>" ]
        (Some "call_6");
      mkMessage role_user [ OtherPart "ImageURLPart" "file:///a.png" ] None ].
Proof.
  apply (tool_messages_text_only
           (mkToolResult "call_6"
              (Ok (mkToolOk (OutPart (OtherPart "ImageURLPart" "file:///a.png"))
                            "" "")))).
  reflexivity.
Defined.

(** ** The text of the translated messages *)

Lemma texts_app (xs ys : list ContentPart) :
  texts (xs ++ ys) = texts xs ++ texts ys.
Proof. apply flat_map_app. Qed.

Lemma texts_filter_text (parts : list ContentPart) :
  texts (filter is_TextPart parts) = texts parts.
Proof.
  induction parts as [|[text | cls payload] parts IH]; simpl;
    [reflexivity | now rewrite IH | exact IH].
Qed.

Lemma texts_filter_non_text (parts : list ContentPart) :
  texts (filter (fun p => negb (is_TextPart p)) parts) = [].
Proof.
  induction parts as [|[text | cls payload] parts IH]; simpl;
    [reflexivity | exact IH | exact IH].
Qed.

(** X2.  The text that [message_extract_text] reads from the message of an
    error: the tagged error message alone, or the tagged message, a line
    break and the raw output when there is output. *)
Theorem error_message_text :
  forall (tool_result : ToolResult) (e : ToolError),
    tr_result tool_result = Error e ->
    err_message e <> "" ->
    exists m,
      tool_result_to_messages tool_result = Return [m]
      /\ (err_output e = "" ->
          message_extract_text (Parts (content m)) =
            ("<system>" ++ err_message e ++ "</system>")%string)
      /\ (err_output e <> "" ->
          message_extract_text (Parts (content m)) =
            (("<system>" ++ err_message e ++ "</system>")
               ++ newline ++ err_output e)%string).
Proof.
  intros tool_result e Hres Hmsg.
  eexists. split; [apply (error_translation tool_result e Hres Hmsg)|].
  split; intro Hout; simpl.
  - apply truthy_false in Hout. rewrite Hout. reflexivity.
  - apply truthy_true in Hout. rewrite Hout. reflexivity.
Qed.

Lemma error_message_text_witness :
  exists m,
    tool_result_to_messages
      (mkToolResult "call_7"
         (Error (mkToolError "ls: not found"
                   "Command failed with exit code: 2" "Failed"))) = Return [m]
    /\ ("ls: not found" = "" ->
        message_extract_text (Parts (content m)) =
          "<system>Command failed with exit code: 2</system>")
    /\ ("ls: not found" <> "" ->
        message_extract_text (Parts (content m)) =
          (("<system>" ++ "Command failed with exit code: 2" ++ "</system>")
             ++ newline ++ "ls: not found")%string).
Proof.
  apply (error_message_text
           (mkToolResult "call_7"
              (Error (mkToolError "ls: not found"
                        "Command failed with exit code: 2" "Failed")))
           (mkToolError "ls: not found"
              "Command failed with exit code: 2" "Failed")).
  - reflexivity.
  - simpl. discriminate.
Defined.

(** X3.  The text of the message of a success with a string as output: the
    tagged message and the output, each only when it is not empty, on
    lines of their own; the tagged sentinel when both are empty. *)
Theorem ok_string_message_text :
  forall (id message text brief : string),
    exists m,
      tool_result_to_messages
        (mkToolResult id (Ok (mkToolOk (OutStr text) message brief))) =
        Return [m]
      /\ role m = role_tool
      /\ (message <> "" -> text <> "" ->
          message_extract_text (Parts (content m)) =
            (("<system>" ++ message ++ "</system>") ++ newline ++ text)%string)
      /\ (message <> "" -> text = "" ->
          message_extract_text (Parts (content m)) =
            ("<system>" ++ message ++ "</system>")%string)
      /\ (message = "" -> text <> "" ->
          message_extract_text (Parts (content m)) = text)
      /\ (message = "" -> text = "" ->
          message_extract_text (Parts (content m)) =
            "<system>Tool output is empty.</system>").
Proof.
  intros id message text brief.
  unfold tool_result_to_messages, tool_ok_to_message_content. simpl.
  destruct (truthy message) eqn:Hm; destruct (truthy text) eqn:Ht; simpl;
    eexists; (split; [reflexivity|]); (split; [reflexivity|]);
    try apply truthy_true in Hm; try apply truthy_false in Hm;
    try apply truthy_true in Ht; try apply truthy_false in Ht;
    repeat split; intros; try contradiction; subst; try reflexivity;
    try (exfalso; auto; fail).
Qed.

Lemma ok_string_message_text_witness :
  exists m,
    tool_result_to_messages
      (mkToolResult "call_8"
         (Ok (mkToolOk (OutStr "hi") "Command executed successfully." ""))) =
      Return [m]
    /\ message_extract_text (Parts (content m)) =
         (("<system>" ++ "Command executed successfully." ++ "</system>")
            ++ newline ++ "hi")%string.
Proof.
  destruct (ok_string_message_text "call_8" "Command executed successfully."
              "hi" "") as [m [Hm [_ [Hboth _]]]].
  exists m. split; [exact Hm|].
  apply Hboth; discriminate.
Defined.

(** X4.  When non-text parts are split off, no text is lost and none goes to
    the user message: the tool message reads as the whole content would,
    followed by the notice, and the user message reads as the empty
    string. *)
Theorem split_keeps_text :
  forall (tool_result : ToolResult) (r : ToolOk) (m1 m2 : Message),
    tr_result tool_result = Ok r ->
    tool_result_to_messages tool_result = Return [m1; m2] ->
    texts (content m1) =
      texts (tool_ok_to_message_content r)
        ++ ["<system>Tool output contains non-text parts. Non-text parts are sent as a user message below.</system>"]
    /\ message_extract_text (Parts (content m2)) = "".
Proof.
  intros tool_result r m1 m2 Hres.
  rewrite (ok_translation tool_result r Hres).
  destruct (forallb _ _); intro H; [discriminate|].
  injection H as <- <-. simpl.
  rewrite texts_app, texts_filter_text, texts_filter_non_text.
  split; reflexivity.
Qed.

Lemma split_keeps_text_witness :
  texts [ TextPart "a chart:";
          TextPart "<system>Tool output contains non-text parts. Non-text parts are sent as a user message below.</system>" ] =
    texts (tool_ok_to_message_content
             (mkToolOk (OutSeq [ TextPart "a chart:";
                                 OtherPart "ImageURLPart" "file:///chart.png" ])
                       "" ""))
      ++ ["<system>Tool output contains non-text parts. Non-text parts are sent as a user message below.</system>"]
  /\ message_extract_text
       (Parts [ OtherPart "ImageURLPart" "file:///chart.png" ]) = "".
Proof.
  apply (split_keeps_text
           (mkToolResult "call_9"
              (Ok (mkToolOk (OutSeq [ TextPart "a chart:";
                                      OtherPart "ImageURLPart" "file:///chart.png" ])
                            "" "")))
           _ _ _ eq_refl eq_refl).
Defined.

(** ** The Bash tool, continued *)

Lemma process_wait_returncode (sched : schedule) :
  forall p code p',
    process_wait sched p = (Returned code, p') ->
    returncode p' = Some code /\ killed p' = killed p.
Proof.
  induction sched as [|o sched IH]; intros p code p'; simpl.
  - destruct (returncode p) eqn:Hrc; intro H; [|discriminate].
    injection H as <- <-. now split.
  - destruct (returncode p) eqn:Hrc.
    + intro H. injection H as <- <-. now split.
    + destruct o as [s line | | | code' | s]; try discriminate; try apply IH.
      intro H. injection H as <- <-. unfold exits. rewrite Hrc. now split.
Qed.



(** X6.  A success means that the child was seen to exit with code 0 and was
    not killed; its message is the fixed one. *)
Theorem ok_means_exit_zero :
  forall (command : string) (timeout : Z) (sched : schedule)
         (r : ToolOk) (process : Process),
    Bash_call command timeout sched = (Returned (Ok r), process) ->
    returncode process = Some 0%Z
    /\ killed process = false
    /\ ok_message r = "Command executed successfully.".
Proof.
  intros command timeout sched r process.
  unfold Bash_call, _stream_subprocess.
  pose proof (gather_keeps_alive stdout_cb stderr_cb sched true true [] spawn
                eq_refl) as Halive.
  destruct (gather_read_streams stdout_cb stderr_cb sched true true [] spawn)
    as [rest buf p | e buf p | buf p]; try discriminate.
  - destruct (process_wait rest p) as [[code | e |] p'] eqn:Hpw.
    + destruct (process_wait_returncode rest p code p' Hpw) as [Hrc Hk].
      destruct (code =? 0)%Z eqn:Hcode; intro H; [|discriminate].
      injection H as <- <-. apply Z.eqb_eq in Hcode. subst code.
      repeat split; [exact Hrc | congruence].
    + destruct e; discriminate.
    + discriminate.
  - destruct e; discriminate.
Qed.

Lemma ok_means_exit_zero_witness :
  returncode (mkProcess false (Some 0%Z)) = Some 0%Z
  /\ killed (mkProcess false (Some 0%Z)) = false
  /\ ok_message (mkToolOk (OutStr "hi") "Command executed successfully." "") =
       "Command executed successfully.".
Proof.
  apply (ok_means_exit_zero "echo hi" 5
           [ Readline Stdout (list_byte_of_string "hi");
             Readline Stdout []; Readline Stderr []; ProcessExits 0 ]).
  reflexivity.
Defined.





(** ** Calls that the schema turns away *)

(** What validation makes of an object: the command must be there and
    be a string, the timeout a number when it is there. *)
Lemma validate_parameters_object (members : list (string * Json)) :
  validate parameters (JObject members) =
    match Json.get "command" members with
    | Some (JString _) =>
        match Json.get "timeout" members with
        | Some (JNumber _) | None => true
        | Some _ => false
        end
    | _ => false
    end.
Proof.
  simpl.
  destruct (Json.get "command" members) as [[| b | n | c | items | ms]|];
    destruct (Json.get "timeout" members) as [[| b' | n' | c' | items' | ms']|];
    reflexivity.
Qed.

(** X9.  The body of the tool does not run on arguments that are no object,
    that lack the command, whose command is no string, or whose timeout
    is present and no number: validation rejects them.  Arguments that
    pass validation and carry a key that the signature does not have
    end in the [TypeError] of the binding, and the body does not run
    either. *)
Theorem call_rejects_ill_formed :
  (forall arguments : Json,
      (forall members, arguments <> JObject members) ->
      call arguments = Rejected)
  /\ (forall members : list (string * Json),
         Json.get "command" members = None ->
         call (JObject members) = Rejected)
  /\ (forall (members : list (string * Json)) (v : Json),
         Json.get "command" members = Some v ->
         (forall s, v <> JString s) ->
         call (JObject members) = Rejected)
  /\ (forall (members : list (string * Json)) (v : Json),
         Json.get "timeout" members = Some v ->
         (forall n, v <> JNumber n) ->
         call (JObject members) = Rejected)
  /\ (forall (command key : string) (v : Json),
         key <> "command" -> key <> "timeout" ->
         validate parameters
           (JObject [("command", JString command); (key, v)]) = true
         /\ call (JObject [("command", JString command); (key, v)]) =
              BindingError).
Proof.
  split; [|split; [|split; [|split]]].
  - intros arguments Hno. unfold call.
    destruct arguments; try reflexivity.
    now contradiction (Hno members).
  - intros members Hnone. unfold call.
    now rewrite validate_parameters_object, Hnone.
  - intros members v Hget Hns. unfold call.
    rewrite validate_parameters_object, Hget.
    destruct v; try reflexivity. now contradiction (Hns s).
  - intros members v Hget Hnn. unfold call.
    rewrite validate_parameters_object, Hget.
    destruct (Json.get "command" members) as [[| b | n | c | items | ms]|];
      try reflexivity.
    destruct v; try reflexivity. now contradiction (Hnn n).
  - intros command key v Hc Ht.
    apply String.eqb_neq in Hc, Ht.
    assert (Hvalid : validate parameters
                       (JObject [("command", JString command); (key, v)]) = true).
    { rewrite validate_parameters_object. cbn [Json.get].
      rewrite String.eqb_refl.
      replace ("command" =? "timeout")%string with false by reflexivity.
      now rewrite Ht. }
    split; [exact Hvalid|].
    unfold call. rewrite Hvalid. unfold bind, declared. cbn [forallb fst].
    rewrite String.eqb_refl, Hc, Ht. reflexivity.
Qed.

Lemma call_rejects_ill_formed_witness :
  call (JString "ls") = Rejected
  /\ call (JObject [("timeout", JNumber 5)]) = Rejected
  /\ call (JObject [("command", JArray [JString "ls"])]) = Rejected
  /\ call (JObject [("command", JString "ls"); ("timeout", JString "5")]) = Rejected
  /\ call (JObject [("command", JString "printf hi"); ("cwd", JString "/tmp")]) =
       BindingError.
Proof.
  destruct call_rejects_ill_formed as [H1 [H2 [H3 [H4 H5]]]].
  split; [|split; [|split; [|split]]].
  - apply H1. discriminate.
  - apply H2. reflexivity.
  - apply (H3 _ (JArray [JString "ls"])); [reflexivity | discriminate].
  - apply (H4 _ (JString "5")); [reflexivity | discriminate].
  - apply (H5 "printf hi" "cwd" (JString "/tmp")); discriminate.
Defined.

(** ** The tables of meta commands *)

Import MetaCmd.

Section Dict.

Context {V : Type}.

Lemma dict_get_set_same (key : string) (value : V) (d : dict V) :
  dict_get key (dict_set key value d) = Some value.
Proof.
  induction d as [|[k v] d IH]; simpl.
  - now rewrite String.eqb_refl.
  - destruct (k =? key)%string eqn:Hk; simpl; now rewrite Hk.
Qed.

Lemma dict_get_set_other (key key' : string) (value : V) (d : dict V) :
  key' <> key ->
  dict_get key' (dict_set key value d) = dict_get key' d.
Proof.
  intro Hne. induction d as [|[k v] d IH]; simpl.
  - destruct (key =? key')%string eqn:Hk; [|reflexivity].
    apply String.eqb_eq in Hk. congruence.
  - destruct (k =? key)%string eqn:Hk; simpl.
    + apply String.eqb_eq in Hk. subst k.
      destruct (key =? key')%string eqn:Hk'; [|reflexivity].
      apply String.eqb_eq in Hk'. congruence.
    + now rewrite IH.
Qed.

Lemma dict_keys_set_present (key : string) (value : V) (d : dict V) :
  In key (dict_keys d) -> dict_keys (dict_set key value d) = dict_keys d.
Proof.
  induction d as [|[k v] d IH]; simpl; [contradiction|].
  intros Hin. destruct (k =? key)%string eqn:Hk; simpl; [reflexivity|].
  destruct Hin as [-> | Hin]; [now rewrite String.eqb_refl in Hk|].
  f_equal. now apply IH.
Qed.

Lemma dict_set_absent (key : string) (value : V) (d : dict V) :
  ~ In key (dict_keys d) -> dict_set key value d = d ++ [(key, value)].
Proof.
  induction d as [|[k v] d IH]; simpl; [reflexivity|].
  intros Hnin. destruct (k =? key)%string eqn:Hk.
  - apply String.eqb_eq in Hk. exfalso. apply Hnin. now left.
  - f_equal. apply IH. intro H. apply Hnin. now right.
Qed.

Lemma dict_set_keeps (key key' : string) (value value' : V) (d : dict V) :
  key' <> key -> In (key', value') d -> In (key', value') (dict_set key value d).
Proof.
  intros Hne. induction d as [|[k v] d IH]; simpl; [contradiction|].
  intros [Heq | Hin].
  - injection Heq as -> ->.
    destruct (key' =? key)%string eqn:Hk.
    + apply String.eqb_eq in Hk. congruence.
    + now left.
  - destruct (k =? key)%string; right; [exact Hin | now apply IH].
Qed.

Lemma dict_set_in (key : string) (value : V) (d : dict V) :
  In (key, value) (dict_set key value d).
Proof.
  induction d as [|[k v] d IH]; simpl; [now left|].
  destruct (k =? key)%string eqn:Hk.
  - apply String.eqb_eq in Hk. subst k. now left.
  - now right.
Qed.

Lemma dict_keys_set_incl (key : string) (value : V) (d : dict V) :
  incl (dict_keys d) (dict_keys (dict_set key value d))
  /\ In key (dict_keys (dict_set key value d)).
Proof.
  destruct (in_dec string_dec key (dict_keys d)) as [Hin | Hnin].
  - rewrite (dict_keys_set_present key value d Hin).
    split; [apply incl_refl | exact Hin].
  - rewrite (dict_set_absent key value d Hnin).
    unfold dict_keys. rewrite map_app. simpl. split.
    + now apply incl_appl, incl_refl.
    + apply in_or_app. right. now left.
Qed.

(** Assigning one value under several keys in turn. *)
Lemma dict_get_set_all (value : V) (keys : list string) :
  forall (d : dict V) (key : string),
    dict_get key (fold_left (fun d k => dict_set k value d) keys d) =
      if existsb (String.eqb key) keys then Some value else dict_get key d.
Proof.
  induction keys as [|k keys IH]; intros d key; simpl; [reflexivity|].
  rewrite IH.
  destruct (existsb (String.eqb key) keys); [now rewrite orb_true_r|].
  rewrite orb_false_r.
  destruct (key =? k)%string eqn:Hk.
  - apply String.eqb_eq in Hk. subst k. apply dict_get_set_same.
  - apply String.eqb_neq in Hk. now apply dict_get_set_other.
Qed.

Lemma dict_keys_set_all_incl (value : V) (keys : list string) :
  forall d : dict V,
    incl (dict_keys d)
         (dict_keys (fold_left (fun d k => dict_set k value d) keys d)).
Proof.
  induction keys as [|k keys IH]; intro d; simpl; [apply incl_refl|].
  eapply incl_tran; [|apply IH].
  apply dict_keys_set_incl.
Qed.

End Dict.

Lemma existsb_eqb_In (key : string) (keys : list string) :
  existsb (String.eqb key) keys = true <-> In key keys.
Proof.
  rewrite existsb_exists. split.
  - intros [k [Hin Hk]]. apply String.eqb_eq in Hk. now subst.
  - intro Hin. exists key. split; [exact Hin | apply String.eqb_refl].
Qed.

(** X11.  Registration and lookup.  After a function is registered, its
    command is listed, and its primary name (the name given, or the name
    of the function) and each of its aliases resolve to it; every other
    name resolves as before. *)
Theorem register_then_lookup :
  forall (strip : string -> string) (given : option string)
         (given_aliases : option (list string))
         (f : PyFunction) (reg : Registry),
    let reg' := _register strip given given_aliases f reg in
    exists cmd,
      func cmd = f
      /\ name cmd = match given with
                    | Some n => if truthy n then n else fn_name f
                    | None => fn_name f
                    end
      /\ aliases cmd = match given_aliases with
                       | Some a => a
                       | None => []
                       end
      /\ In cmd (get_meta_commands reg')
      /\ (forall n, n = name cmd \/ In n (aliases cmd) ->
                    get_meta_command reg' n = Some cmd)
      /\ (forall n, n <> name cmd -> ~ In n (aliases cmd) ->
                    get_meta_command reg' n = get_meta_command reg n).
Proof.
  intros strip given given_aliases f reg reg'.
  subst reg'. unfold _register.
  set (primary := match given with
                  | Some n => if truthy n then n else fn_name f
                  | None => fn_name f
                  end).
  set (alias_list := match given_aliases with
                     | Some a => if is_empty a then [] else a
                     | None => []
                     end).
  assert (Hal : alias_list = match given_aliases with Some a => a | None => [] end).
  { subst alias_list. destruct given_aliases as [[|a al]|]; reflexivity. }
  set (cmd := mkMetaCommand primary _ f alias_list).
  exists cmd. repeat split; try reflexivity; try exact Hal.
  - unfold get_meta_commands, dict_values. simpl.
    change cmd with (snd (primary, cmd)). apply in_map. apply dict_set_in.
  - intros n Hn. unfold get_meta_command. simpl.
    rewrite dict_get_set_all.
    destruct (existsb (String.eqb n) alias_list) eqn:Hex; [reflexivity|].
    destruct Hn as [-> | Hin].
    + apply dict_get_set_same.
    + apply existsb_eqb_In in Hin. simpl in Hin. congruence.
  - intros n Hne Hnin. unfold get_meta_command. simpl.
    rewrite dict_get_set_all.
    destruct (existsb (String.eqb n) alias_list) eqn:Hex.
    + apply existsb_eqb_In in Hex. contradiction.
    + now apply dict_get_set_other.
Qed.

Lemma register_then_lookup_witness :
  exists cmd,
    name cmd = "help"
    /\ get_meta_command (module_registry (fun s => s)) "?" = Some cmd
    /\ get_meta_command (module_registry (fun s => s)) "quit" =
         get_meta_command
           (_register (fun s => s) None (Some ["quit"]) exit_function
                      empty_registry) "quit".
Proof.
  destruct (register_then_lookup (fun s => s) None (Some ["h"; "?"])
              help_function
              (_register (fun s => s) None (Some ["quit"]) exit_function
                         empty_registry))
    as [cmd [_ [Hname [Hal [_ [Hlook Hframe]]]]]].
  exists cmd. split; [exact Hname|]. split.
  - apply Hlook. right. rewrite Hal. simpl. auto.
  - apply Hframe.
    + rewrite Hname. discriminate.
    + rewrite Hal. simpl. intros [H | [H | H]]; try discriminate; exact H.
Defined.

Lemma registry_names_are_keys (reg : Registry) :
  registry_ok reg ->
  map name (get_meta_commands reg) = dict_keys (_meta_commands reg).
Proof.
  intros [_ [Hnames _]]. unfold get_meta_commands, dict_values, dict_keys.
  rewrite map_map. apply map_ext_in.
  intros kv Hin. rewrite Forall_forall in Hnames. now apply Hnames.
Qed.

Lemma dict_set_names {V} (nm : V -> string) (key : string) (value : V)
    (d : dict V) :
  nm value = key ->
  Forall (fun kv => nm (snd kv) = fst kv) d ->
  Forall (fun kv => nm (snd kv) = fst kv) (dict_set key value d).
Proof.
  intros Hv. induction 1 as [|[k v] d Hkv Hd IH]; simpl.
  - now repeat constructor.
  - destruct (k =? key)%string eqn:Hk.
    + apply String.eqb_eq in Hk. subst k. constructor; assumption.
    + constructor; assumption.
Qed.

Lemma dict_set_nodup {V} (key : string) (value : V) (d : dict V) :
  NoDup (dict_keys d) -> NoDup (dict_keys (dict_set key value d)).
Proof.
  intro Hnd.
  destruct (in_dec string_dec key (dict_keys d)) as [Hin | Hnin].
  - now rewrite (dict_keys_set_present key value d Hin).
  - rewrite (dict_set_absent key value d Hnin).
    unfold dict_keys. rewrite map_app. simpl.
    apply NoDup_app; [exact Hnd | repeat constructor; intros [] | ].
    intros k Hk [<- | []]. contradiction.
Qed.

Lemma registry_ok_empty : registry_ok empty_registry.
Proof.
  repeat split; simpl; [constructor | constructor | apply incl_refl].
Qed.

Lemma registry_ok_register (strip : string -> string) (given : option string)
    (given_aliases : option (list string)) (f : PyFunction) (reg : Registry) :
  registry_ok reg ->
  registry_ok (_register strip given given_aliases f reg).
Proof.
  intros [Hnd [Hnames Hincl]].
  unfold _register, registry_ok. simpl. repeat split.
  - now apply dict_set_nodup.
  - now apply dict_set_names.
  - eapply incl_tran; [|apply dict_keys_set_all_incl].
    intros k Hk.
    match goal with
    | |- In k (dict_keys (dict_set ?p ?c _)) =>
        destruct (string_dec k p) as [-> | Hne];
          [apply (dict_keys_set_incl p c) |]
    end.
    apply dict_keys_set_incl. apply Hincl.
    match type of Hk with
    | In k (dict_keys (dict_set ?p ?c ?d)) =>
        destruct (in_dec string_dec p (dict_keys d)) as [Hin | Hnin];
          [ now rewrite (dict_keys_set_present p c d Hin) in Hk
          | rewrite (dict_set_absent p c d Hnin) in Hk ]
    end.
    unfold dict_keys in Hk. rewrite map_app in Hk.
    apply in_app_or in Hk. destruct Hk as [Hk | [Hk | []]]; [exact Hk|].
    simpl in Hk. congruence.
Qed.

(** X12.  The listing has each primary name once.  The tables are well formed
    at the start and stay so through every registration; in well-formed
    tables no two listed commands share a name, as the docstring of
    [get_meta_commands] promises. *)
Theorem listing_has_unique_names :
  registry_ok empty_registry
  /\ (forall (strip : string -> string) (given : option string)
             (given_aliases : option (list string))
             (f : PyFunction) (reg : Registry),
         registry_ok reg ->
         registry_ok (_register strip given given_aliases f reg))
  /\ (forall reg : Registry,
         registry_ok reg -> NoDup (map name (get_meta_commands reg))).
Proof.
  split; [exact registry_ok_empty | split].
  - exact registry_ok_register.
  - intros reg Hok. rewrite (registry_names_are_keys reg Hok). apply Hok.
Qed.

Lemma listing_has_unique_names_witness :
  NoDup (map name (get_meta_commands (module_registry (fun s => s)))).
Proof.
  destruct listing_has_unique_names as [Hempty [Hstep Hnodup]].
  apply Hnodup. unfold module_registry.
  apply Hstep. apply Hstep. exact Hempty.
Defined.

(** X13.  New commands are listed last; registering a name again replaces its
    command in place.  On well-formed tables: when the primary name is
    new, the listing grows by the new command at its end; when it is
    listed already, the listing keeps its names in their order. *)
Theorem listing_order :
  forall (strip : string -> string) (given : option string)
         (given_aliases : option (list string))
         (f : PyFunction) (reg : Registry),
    registry_ok reg ->
    let reg' := _register strip given given_aliases f reg in
    let primary := match given with
                   | Some n => if truthy n then n else fn_name f
                   | None => fn_name f
                   end in
    (~ In primary (map name (get_meta_commands reg)) ->
     exists cmd,
       name cmd = primary /\ func cmd = f
       /\ get_meta_commands reg' = get_meta_commands reg ++ [cmd])
    /\ (In primary (map name (get_meta_commands reg)) ->
        map name (get_meta_commands reg') = map name (get_meta_commands reg)).
Proof.
  intros strip given given_aliases f reg Hok reg' primary.
  assert (Hok' : registry_ok reg').
  { now apply registry_ok_register. }
  rewrite (registry_names_are_keys reg Hok).
  split; intro H.
  - eexists. split; [|split]; cycle 2.
    + subst reg'. unfold _register, get_meta_commands, dict_values. simpl.
      fold primary. rewrite (dict_set_absent _ _ _ H).
      rewrite map_app. reflexivity.
    + reflexivity.
    + reflexivity.
  - rewrite (registry_names_are_keys reg' Hok').
    subst reg'. unfold _register. simpl. fold primary.
    now apply dict_keys_set_present.
Qed.

Lemma listing_order_witness :
  exists cmd,
    name cmd = "help" /\ func cmd = help_function
    /\ get_meta_commands (module_registry (fun s => s)) =
         get_meta_commands
           (_register (fun s => s) None (Some ["quit"]) exit_function
                      empty_registry) ++ [cmd].
Proof.
  apply (listing_order (fun s => s) None (Some ["h"; "?"]) help_function
           (_register (fun s => s) None (Some ["quit"]) exit_function
                      empty_registry)).
  - apply registry_ok_register. exact registry_ok_empty.
  - simpl. intros [H | []]. discriminate.
Defined.

(** X14.  A later command that takes the primary name of an earlier one as an
    alias takes over its lookup: the name then resolves to the later
    command, while the earlier one is still listed under it. *)
Theorem alias_shadows_primary_name :
  forall (strip : string -> string) (reg : Registry) (fa fb : PyFunction)
         (a b : string) (aliases_a : option (list string)),
    a <> "" -> b <> "" -> a <> b ->
    let reg1 := _register strip (Some a) aliases_a fa reg in
    let reg2 := _register strip (Some b) (Some [a]) fb reg1 in
    (exists cmd_b,
        get_meta_command reg2 a = Some cmd_b
        /\ name cmd_b = b /\ func cmd_b = fb)
    /\ (exists cmd_a,
           In cmd_a (get_meta_commands reg2)
           /\ name cmd_a = a /\ func cmd_a = fa).
Proof.
  intros strip reg fa fb a b aliases_a Ha Hb Hab reg1 reg2.
  apply truthy_true in Ha, Hb.
  split.
  - eexists. split; [|split].
    + subst reg2. unfold _register at 1, get_meta_command.
      cbn [_meta_command_aliases]. rewrite Hb. cbn [is_empty].
      rewrite dict_get_set_all. cbn [existsb]. rewrite String.eqb_refl.
      reflexivity.
    + reflexivity.
    + reflexivity.
  - subst reg2 reg1. unfold _register, get_meta_commands, dict_values.
    cbn [_meta_commands]. rewrite Ha, Hb.
    match goal with
    | |- context [dict_set b ?cb (dict_set a ?ca ?d)] =>
        exists ca; split; [|split; reflexivity];
        change ca with (snd (a, ca)); apply in_map;
        apply dict_set_keeps; [exact Hab | apply dict_set_in]
    end.
Qed.

Lemma alias_shadows_primary_name_witness :
  (exists cmd_b,
      get_meta_command
        (_register (fun s => s) (Some "bye") (Some ["exit"])
           (mkFunction "leave" None)
           (_register (fun s => s) (Some "exit") (Some ["quit"])
              exit_function empty_registry))
        "exit" = Some cmd_b
      /\ name cmd_b = "bye" /\ func cmd_b = mkFunction "leave" None)
  /\ (exists cmd_a,
         In cmd_a
           (get_meta_commands
              (_register (fun s => s) (Some "bye") (Some ["exit"])
                 (mkFunction "leave" None)
                 (_register (fun s => s) (Some "exit") (Some ["quit"])
                    exit_function empty_registry)))
         /\ name cmd_a = "exit" /\ func cmd_a = exit_function).
Proof.
  apply (alias_shadows_primary_name (fun s => s) empty_registry
           exit_function (mkFunction "leave" None)
           "exit" "bye" (Some ["quit"])); discriminate.
Defined.

(** ** The completer of meta commands *)

(** The order of strings is transitive. *)
Lemma ascii_compare_refl (a : ascii) : Ascii.compare a a = Eq.
Proof. unfold Ascii.compare. apply N.compare_refl. Qed.

Lemma ascii_compare_trans_lt (a b c : ascii) :
  Ascii.compare a b = Lt -> Ascii.compare b c = Lt -> Ascii.compare a c = Lt.
Proof. unfold Ascii.compare. rewrite !N.compare_lt_iff. lia. Qed.

Lemma string_compare_trans_lt (s1 : string) :
  forall s2 s3,
    String.compare s1 s2 = Lt -> String.compare s2 s3 = Lt ->
    String.compare s1 s3 = Lt.
Proof.
  induction s1 as [|a s1 IH]; intros [|b s2] [|c s3]; simpl;
    try discriminate; auto.
  destruct (Ascii.compare a b) eqn:Hab; try discriminate;
    destruct (Ascii.compare b c) eqn:Hbc; try discriminate; intros H1 H2.
  - apply Ascii.compare_eq_iff in Hab, Hbc. subst.
    rewrite ascii_compare_refl. now apply (IH s2).
  - apply Ascii.compare_eq_iff in Hab. subst. now rewrite Hbc.
  - apply Ascii.compare_eq_iff in Hbc. subst. now rewrite Hab.
  - now rewrite (ascii_compare_trans_lt a b c Hab Hbc).
Qed.

Lemma string_leb_trans (s1 s2 s3 : string) :
  String.leb s1 s2 = true -> String.leb s2 s3 = true -> String.leb s1 s3 = true.
Proof.
  intros H12 H23. generalize H12 H23. unfold String.leb.
  destruct (String.compare s1 s2) eqn:C12; try discriminate;
    destruct (String.compare s2 s3) eqn:C23; try discriminate; intros _ _.
  - apply String.compare_eq_iff in C12, C23. subst. exact H12.
  - apply String.compare_eq_iff in C12. subst. now rewrite C23.
  - apply String.compare_eq_iff in C23. subst. now rewrite C12.
  - now rewrite (string_compare_trans_lt s1 s2 s3 C12 C23).
Qed.

(** The sort by name: a permutation, in order. *)
Lemma insert_by_name_perm (cmd : MetaCommand) (cmds : list MetaCommand) :
  Permutation (insert_by_name cmd cmds) (cmd :: cmds).
Proof.
  induction cmds as [|c cmds IH]; simpl; [reflexivity|].
  destruct (String.leb (name cmd) (name c)); [reflexivity|].
  rewrite IH. apply perm_swap.
Qed.

Lemma sorted_by_name_perm (cmds : list MetaCommand) :
  Permutation (sorted_by_name cmds) cmds.
Proof.
  induction cmds as [|c cmds IH]; simpl; [reflexivity|].
  rewrite insert_by_name_perm. now constructor.
Qed.

Lemma insert_by_name_sorted (cmd : MetaCommand) (cmds : list MetaCommand) :
  StronglySorted (fun c1 c2 => String.leb (name c1) (name c2) = true) cmds ->
  StronglySorted (fun c1 c2 => String.leb (name c1) (name c2) = true)
                 (insert_by_name cmd cmds).
Proof.
  induction 1 as [|c cmds Hs IH Hc]; simpl.
  - repeat constructor.
  - destruct (String.leb (name cmd) (name c)) eqn:Hle.
    + constructor; [now constructor|].
      constructor; [exact Hle|].
      eapply Forall_impl; [|exact Hc].
      intros c' Hc'. now apply (string_leb_trans _ (name c)).
    + constructor; [exact IH|].
      rewrite (insert_by_name_perm cmd cmds).
      constructor; [|exact Hc].
      destruct (String.leb_total (name cmd) (name c)); congruence.
Qed.

Lemma sorted_by_name_sorted (cmds : list MetaCommand) :
  StronglySorted (fun c1 c2 => String.leb (name c1) (name c2) = true)
                 (sorted_by_name cmds).
Proof.
  induction cmds as [|c cmds IH]; simpl; [constructor|].
  now apply insert_by_name_sorted.
Qed.

(** The token under the cursor: what follows the last space. *)
Lemma rfind_from_absent (ch : ascii) (word : string) :
  ~ In ch (list_ascii_of_string word) ->
  forall i found, rfind_from i ch word found = found.
Proof.
  induction word as [|c word IH]; simpl; intros Hnin i found; [reflexivity|].
  rewrite IH by tauto.
  destruct (c =? ch)%char eqn:Hc; [|reflexivity].
  apply Ascii.eqb_eq in Hc. tauto.
Qed.

Lemma rfind_from_last (ch : ascii) (word : string) :
  ~ In ch (list_ascii_of_string word) ->
  forall before i found,
    rfind_from i ch (before ++ String ch word)%string found =
      (i + Z.of_nat (String.length before))%Z.
Proof.
  intros Hnin. induction before as [|c before IH]; intros i found.
  - simpl. rewrite Ascii.eqb_refl. rewrite rfind_from_absent by exact Hnin. lia.
  - cbn [String.append rfind_from String.length]. rewrite IH. lia.
Qed.

Lemma last_token (pre word : string) :
  pre = "" \/ (exists before, pre = (before ++ " ")%string) ->
  ~ In " "%char (list_ascii_of_string word) ->
  slice_from (Z.to_nat (rfind " " (pre ++ word)%string + 1))
             (pre ++ word)%string = word.
Proof.
  intros [-> | [before ->]] Hnin; unfold rfind.
  - simpl String.append. rewrite rfind_from_absent by exact Hnin. reflexivity.
  - assert (Happ : forall a b c : string, ((a ++ b) ++ c = a ++ (b ++ c))%string).
    { induction a; intros; simpl; [reflexivity | now rewrite IHa]. }
    rewrite Happ. change (" " ++ word)%string with (String " " word).
    rewrite (rfind_from_last " " word Hnin).
    replace (Z.to_nat (0 + Z.of_nat (String.length before) + 1))
      with (S (String.length before)) by lia.
    clear. induction before as [|c before IH]; simpl; [reflexivity | exact IH].
Qed.

Section Completer.

Variable lower : string -> string.
Variable reg : Registry.

(** The completions for a token, once the token is known. *)
Lemma completions_of_token (pre word : string) :
  pre = "" \/ (exists before, pre = (before ++ " ")%string) ->
  ~ In " "%char (list_ascii_of_string word) ->
  get_completions lower reg (pre ++ word)%string =
    if negb (String.prefix "/" word) then []
    else
      flat_map
        (fun cmd =>
           if (slice_from 1 word =? "")%string
              || existsb (fun n => String.prefix (lower (slice_from 1 word))
                                                 (lower n))
                         (name cmd :: aliases cmd)
           then [ mkCompletion ("/" ++ name cmd)%string (- len word)
                               (slash_name cmd) (description cmd) ]
           else [])
        (sorted_by_name (get_meta_commands reg)).
Proof.
  intros Hpre Hword. unfold get_completions.
  now rewrite (last_token pre word Hpre Hword).
Qed.

Lemma flat_map_sorted {A B} (R : A -> A -> Prop) (R' : B -> B -> Prop)
    (keep : A -> bool) (h : A -> B) (xs : list A) :
  (forall x y, R x y -> R' (h x) (h y)) ->
  StronglySorted R xs ->
  StronglySorted R' (flat_map (fun x => if keep x then [h x] else []) xs).
Proof.
  intros HR. induction 1 as [|x xs Hs IH Hx]; simpl; [constructor|].
  destruct (keep x); simpl; [|exact IH].
  constructor; [exact IH|].
  apply Forall_forall. intros b Hb.
  apply in_flat_map in Hb. destruct Hb as [y [Hy Hb]].
  rewrite Forall_forall in Hx.
  destruct (keep y); [|contradiction].
  destruct Hb as [<- | []]. apply HR. now apply Hx.
Qed.

End Completer.

(** X15.  The completer is silent unless the token under the cursor, the text
    after the last space, starts with a slash. *)
Theorem completions_need_slash :
  forall (lower : string -> string) (reg : Registry) (pre word : string),
    pre = "" \/ (exists before, pre = (before ++ " ")%string) ->
    ~ In " "%char (list_ascii_of_string word) ->
    String.prefix "/" word = false ->
    get_completions lower reg (pre ++ word)%string = [].
Proof.
  intros lower reg pre word Hpre Hword Hslash.
  rewrite (completions_of_token lower reg pre word Hpre Hword).
  now rewrite Hslash.
Qed.

Lemma completions_need_slash_witness :
  get_completions (fun s => s) (module_registry (fun s => s))
    ("/help " ++ "he")%string = [].
Proof.
  apply (completions_need_slash (fun s => s) (module_registry (fun s => s))
           "/help " "he").
  - right. exists "/help". reflexivity.
  - simpl. intros [H | [H | []]]; discriminate.
  - reflexivity.
Defined.

(** X16.  What is offered for a token "/typed".  A completion is offered for
    exactly those listed commands whose name or one of whose aliases
    starts, in lower case, with what is typed, and for all of them when
    nothing is typed; it inserts the primary name, also when an alias
    matched, in place of the whole token, and shows the aliases and the
    description.  The completions come in the order of the names. *)
Theorem completions_offer_primary_names :
  forall (lower : string -> string) (reg : Registry) (pre typed : string),
    pre = "" \/ (exists before, pre = (before ++ " ")%string) ->
    ~ In " "%char (list_ascii_of_string typed) ->
    let offered := get_completions lower reg (pre ++ "/" ++ typed)%string in
    (forall c,
        In c offered <->
        exists cmd,
          In cmd (get_meta_commands reg)
          /\ (typed = ""
              \/ exists n, In n (name cmd :: aliases cmd)
                           /\ String.prefix (lower typed) (lower n) = true)
          /\ c = mkCompletion ("/" ++ name cmd)%string (- (1 + len typed))
                              (slash_name cmd) (description cmd))
    /\ StronglySorted (fun c1 c2 => String.leb (text c1) (text c2) = true)
                      offered.
Proof.
  intros lower reg pre typed Hpre Htyped offered.
  assert (Hword : ~ In " "%char (list_ascii_of_string ("/" ++ typed))).
  { simpl. intros [H | H]; [discriminate | contradiction]. }
  assert (Hlen : len ("/" ++ typed) = (1 + len typed)%Z) by reflexivity.
  subst offered.
  rewrite (completions_of_token lower reg pre ("/" ++ typed) Hpre Hword).
  change (String.prefix "/" ("/" ++ typed)) with (String.prefix "" typed).
  replace (String.prefix "" typed) with true by (now destruct typed).
  cbn [negb]. change (slice_from 1 ("/" ++ typed)) with typed. rewrite Hlen.
  split.
  - intro c. rewrite in_flat_map. split.
    + intros [cmd [Hin Hc]].
      exists cmd. split.
      { now apply (Permutation_in _ (sorted_by_name_perm _)). }
      destruct ((typed =? "")%string
                || existsb (fun n => String.prefix (lower typed) (lower n))
                           (name cmd :: aliases cmd)) eqn:Hmatch;
        [|contradiction].
      destruct Hc as [<- | []]. split; [|reflexivity].
      apply orb_true_iff in Hmatch. destruct Hmatch as [Hempty | Hex].
      * left. now apply String.eqb_eq.
      * right. apply existsb_exists in Hex. exact Hex.
    + intros [cmd [Hin [Hmatch ->]]].
      exists cmd. split.
      { apply (Permutation_in _ (Permutation_sym (sorted_by_name_perm _))).
        exact Hin. }
      replace ((typed =? "")%string
               || existsb (fun n => String.prefix (lower typed) (lower n))
                          (name cmd :: aliases cmd)) with true; [now left|].
      symmetry. apply orb_true_iff. destruct Hmatch as [-> | Hex].
      * now left.
      * right. apply existsb_exists. exact Hex.
  - apply (flat_map_sorted
             (fun c1 c2 => String.leb (name c1) (name c2) = true)
             (fun c1 c2 => String.leb (text c1) (text c2) = true)
             (fun cmd => (typed =? "")%string
                         || existsb (fun n => String.prefix (lower typed) (lower n))
                                    (name cmd :: aliases cmd))
             (fun cmd => mkCompletion ("/" ++ name cmd)%string (- (1 + len typed))
                                      (slash_name cmd) (description cmd))).
    + intros x y Hxy. exact Hxy.
    + apply sorted_by_name_sorted.
Qed.

(** Typing "/q" offers "/exit", through its alias "quit". *)
Lemma completions_offer_primary_names_witness :
  In (mkCompletion "/exit" (-2) "/exit (quit)" "Exit the application")
     (get_completions (fun s => s) (module_registry (fun s => s))
        ("" ++ "/" ++ "q")%string).
Proof.
  apply (proj1 (completions_offer_primary_names (fun s => s)
                  (module_registry (fun s => s)) "" "q"
                  (or_introl eq_refl)
                  ltac:(simpl; intros [H | []]; discriminate))).
  eexists. split; [|split].
  - left. reflexivity.
  - right. exists "quit". split; [right; left; reflexivity | reflexivity].
  - reflexivity.
Defined.

(** ** The shell: prompts, meta commands and runs of the soul *)

Import ShellRun.

(** [split(" ")] loses nothing: the pieces have no space, there is at
    least one, and joined by spaces they give the string back. *)
Lemma split_spaces_spec (s : string) :
  split_spaces s <> []
  /\ String.concat " " (split_spaces s) = s
  /\ Forall (fun piece => ~ In " "%char (list_ascii_of_string piece))
            (split_spaces s).
Proof.
  induction s as [|c s [Hne [Hjoin Hpieces]]]; simpl.
  - repeat split; [discriminate | repeat constructor; intros []].
  - destruct (c =? " ")%char eqn:Hc.
    + apply Ascii.eqb_eq in Hc. subst c.
      repeat split; [discriminate | |].
      * destruct (split_spaces s) as [|p ps]; [contradiction|].
        simpl. simpl in Hjoin. now rewrite Hjoin.
      * constructor; [intros [] | exact Hpieces].
    + destruct (split_spaces s) as [|p ps]; [contradiction|].
      repeat split; [discriminate | |].
      * simpl in *. destruct ps; simpl in *; now rewrite Hjoin.
      * inversion Hpieces as [|? ? Hp Hps]; subst.
        constructor; [|exact Hps].
        simpl. intros [H | H]; [|contradiction].
        subst c. now rewrite Ascii.eqb_refl in Hc.
Qed.

Section ShellProperties.

Variable strip : string -> string.
Variable Soul : Type.
Variable soul_name : Soul -> string.
Variable soul_run : Soul -> string -> SoulRun * Soul.
Variable Command : Type.
Variable get_meta_command : string -> option Command.
Variable call : Command -> list string -> Soul -> option string * Soul.

Let loop := prompt_loop strip Soul soul_run Command get_meta_command call.

Lemma soul_run_actions (soul : Soul) (user_input : string) :
  exists ok soul' rest,
    _soul_run Soul soul_run soul user_input =
      (ok, soul', RunSoul user_input :: rest)
    /\ Forall (fun a => exists line, a = Print line) rest
    /\ (ok = true <-> fst (soul_run soul user_input) = Completed).
Proof.
  unfold _soul_run.
  destruct (soul_run soul user_input) as [[| e | n | | e] soul']; simpl;
    do 3 eexists; (split; [reflexivity|]);
    (split; [repeat constructor; eexists; reflexivity|]);
    split; (discriminate || reflexivity).
Qed.

Lemma meta_command_actions (soul : Soul) (command_str : string) :
  exists raised soul' actions,
    _run_meta_command Soul Command get_meta_command call soul command_str =
      (raised, soul', actions)
    /\ Forall (fun a => match a with RunSoul _ => False | _ => True end) actions
    /\ (raised <> None ->
        exists command args,
          get_meta_command (hd EmptyString (split_spaces command_str)) =
            Some command
          /\ fst (call command args soul) = raised).
Proof.
  unfold _run_meta_command.
  destruct (get_meta_command (hd EmptyString (split_spaces command_str)))
    as [command|].
  - destruct (call command (tl (split_spaces command_str)) soul)
      as [raised soul'] eqn:Hcall.
    do 3 eexists. split; [reflexivity|]. split; [repeat constructor|].
    intros _. exists command, (tl (split_spaces command_str)).
    split; [reflexivity | now rewrite Hcall].
  - do 3 eexists. split; [reflexivity|]. split; [repeat constructor|].
    intro H. now contradiction H.
Qed.

(** What reaches the soul from the prompt.  Every input the interactive
    loop hands to the soul is a line of the prompt, stripped, that is
    not empty, is none of the exit words and does not start with a
    slash. *)
Lemma soul_inputs_checked_loop (prompts : list Prompt) :
  forall soul r soul' actions,
    loop prompts soul = (r, soul', actions) ->
    Forall (fun a =>
              match a with
              | RunSoul user_input =>
                  user_input <> ""
                  /\ ~ In user_input exit_words
                  /\ String.prefix "/" user_input = false
                  /\ exists text, In (Line text) prompts
                                  /\ user_input = strip text
              | _ => True
              end) actions.
Proof.
  subst loop.
  induction prompts as [|p prompts IH]; intros soul r soul' actions;
    cbn [prompt_loop].
  - intro H. injection H as <- <- <-. constructor.
  - assert (Hmono : forall acts,
               Forall (fun a =>
                         match a with
                         | RunSoul user_input =>
                             user_input <> ""
                             /\ ~ In user_input exit_words
                             /\ String.prefix "/" user_input = false
                             /\ exists text, In (Line text) prompts
                                             /\ user_input = strip text
                         | _ => True
                         end) acts ->
               Forall (fun a =>
                         match a with
                         | RunSoul user_input =>
                             user_input <> ""
                             /\ ~ In user_input exit_words
                             /\ String.prefix "/" user_input = false
                             /\ exists text, In (Line text) (p :: prompts)
                                             /\ user_input = strip text
                         | _ => True
                         end) acts).
    { intros acts. apply Forall_impl. intros [line | body | input | n args]; auto.
      intros [H1 [H2 [H3 [text [Hin Heq]]]]].
      repeat split; auto. exists text. split; [now right | exact Heq]. }
    destruct p as [text | |].
    + destruct (truthy (strip text)) eqn:Hne; cbn [negb]; cbv iota.
      2:{ intro H. apply Hmono. now apply (IH soul r soul'). }
      destruct (existsb (String.eqb (strip text)) exit_words) eqn:Hexit.
      { intro H. injection H as <- <- <-. repeat constructor. }
      destruct (String.prefix "/" (strip text)) eqn:Hslash.
      * destruct (meta_command_actions soul (slice_from 1 (strip text)))
          as [raised [soul1 [done [Hmeta [Hdone _]]]]].
        rewrite Hmeta. destruct raised as [e|].
        -- intro H. injection H as <- <- <-.
           eapply Forall_impl; [|exact Hdone]. now intros [].
        -- destruct (prompt_loop strip Soul soul_run Command get_meta_command
                       call prompts soul1) as [[r1 soul2] acts] eqn:Hloop.
           intro H. injection H as <- <- <-.
           apply Forall_app. split.
           ++ eapply Forall_impl; [|exact Hdone]. now intros [].
           ++ apply Hmono. now apply (IH soul1 r1 soul2).
      * destruct (soul_run_actions soul (strip text))
          as [ok [soul1 [rest [Hrun [Hrest _]]]]].
        rewrite Hrun.
        destruct (prompt_loop strip Soul soul_run Command get_meta_command
                    call prompts soul1) as [[r1 soul2] acts] eqn:Hloop.
        intro H. injection H as <- <- <-.
        constructor; [|apply Forall_app; split].
        -- repeat split.
           ++ exact (proj1 (truthy_true _) Hne).
           ++ intro Hin. apply (proj2 (existsb_eqb_In _ _)) in Hin. congruence.
           ++ exact Hslash.
           ++ exists text. split; [now left | reflexivity].
        -- eapply Forall_impl; [|exact Hrest].
           intros a [line ->]. exact I.
        -- apply Hmono. now apply (IH soul1 r1 soul2).
    + destruct (prompt_loop strip Soul soul_run Command get_meta_command
                  call prompts soul) as [[r1 soul1] acts] eqn:Hloop.
      intro H. injection H as <- <- <-.
      constructor; [exact I|]. apply Hmono. now apply (IH soul r1 soul1).
    + intro H. injection H as <- <- <-. repeat constructor.
Qed.

End ShellProperties.

Section ShellResults.

Variable strip : string -> string.
Variable Soul : Type.
Variable soul_run : Soul -> string -> SoulRun * Soul.
Variable Command : Type.
Variable get_meta_command : string -> option Command.
Variable call : Command -> list string -> Soul -> option string * Soul.

(** How the loop can end: with [True], or by the exception of a meta
    command. *)
Lemma loop_result (prompts : list Prompt) :
  forall soul r soul' actions,
    prompt_loop strip Soul soul_run Command get_meta_command call prompts soul =
      (r, soul', actions) ->
    match r with
    | Exited ok => ok = true
    | Crashed e =>
        exists command args s, fst (call command args s) = Some e
    | Waiting => True
    end.
Proof.
  induction prompts as [|p prompts IH]; intros soul r soul' actions;
    cbn [prompt_loop].
  - intro H. now injection H as <- <- <-.
  - destruct p as [text | |].
    + destruct (truthy (strip text)); cbn [negb]; cbv iota; [|apply IH].
      destruct (existsb (String.eqb (strip text)) exit_words).
      { intro H. now injection H as <- <- <-. }
      destruct (String.prefix "/" (strip text)).
      * destruct (meta_command_actions Soul Command get_meta_command call
                    soul (slice_from 1 (strip text)))
          as [raised [soul1 [done [Hmeta [_ Hraised]]]]].
        rewrite Hmeta. destruct raised as [e|].
        -- intro H. injection H as <- <- <-.
           destruct (Hraised ltac:(discriminate)) as [command [args [_ Hcall]]].
           now exists command, args, soul.
        -- destruct (prompt_loop strip Soul soul_run Command get_meta_command
                       call prompts soul1) as [[r1 soul2] acts] eqn:Hloop.
           intro H. injection H as <- <- <-. exact (IH _ _ _ _ Hloop).
      * destruct (_soul_run Soul soul_run soul (strip text)) as [[ok soul1] done].
        destruct (prompt_loop strip Soul soul_run Command get_meta_command
                    call prompts soul1) as [[r1 soul2] acts] eqn:Hloop.
        intro H. injection H as <- <- <-. exact (IH _ _ _ _ Hloop).
    + destruct (prompt_loop strip Soul soul_run Command get_meta_command
                  call prompts soul) as [[r1 soul1] acts] eqn:Hloop.
      intro H. injection H as <- <- <-. exact (IH _ _ _ _ Hloop).
    + intro H. now injection H as <- <- <-.
Qed.

(** Ctrl-C and blank lines at the prompt change nothing but print the
    tip. *)
Lemma loop_skips_quiet (quiet rest : list Prompt) (soul : Soul) :
  Forall (fun p => p = PromptKeyboardInterrupt
                   \/ exists text, p = Line text /\ strip text = "") quiet ->
  exists tips,
    Forall (fun a => exists line, a = Print line) tips
    /\ prompt_loop strip Soul soul_run Command get_meta_command call
         (quiet ++ rest) soul =
       let '(r, soul', actions) :=
         prompt_loop strip Soul soul_run Command get_meta_command call rest soul in
       (r, soul', tips ++ actions).
Proof.
  induction 1 as [|p quiet Hp _ [tips [Htips IH]]].
  - exists []. split; [constructor|]. simpl.
    now destruct (prompt_loop _ _ _ _ _ _ rest soul) as [[r s] a].
  - destruct Hp as [-> | [text [-> Hblank]]].
    + eexists (_ :: tips). split.
      * constructor; [eexists; reflexivity | exact Htips].
      * cbn [app prompt_loop]. rewrite IH.
        now destruct (prompt_loop _ _ _ _ _ _ rest soul) as [[r s] a].
    + exists tips. split; [exact Htips|].
      cbn [app prompt_loop]. rewrite Hblank. exact IH.
Qed.

End ShellResults.

(** X17.  What reaches the soul from the prompt.  In interactive use, every
    input handed to the soul is a line of the prompt, stripped, that is
    not empty, is none of "exit", "quit", "/exit", "/quit", and does not
    start with a slash. *)
Theorem soul_inputs_are_checked :
  forall (strip : string -> string) (Soul : Type) (soul_name : Soul -> string)
         (soul_run : Soul -> string -> SoulRun * Soul) (Command : Type)
         (get_meta_command : string -> option Command)
         (call : Command -> list string -> Soul -> option string * Soul)
         (soul : Soul) (welcome_info : list (string * string))
         (prompts : list Prompt)
         (r : RunResult) (soul' : Soul) (actions : list Action),
    run strip Soul soul_name soul_run Command get_meta_command call
        soul welcome_info None prompts = (r, soul', actions) ->
    forall user_input,
      In (RunSoul user_input) actions ->
      user_input <> ""
      /\ ~ In user_input ["exit"; "quit"; "/exit"; "/quit"]
      /\ String.prefix "/" user_input = false
      /\ exists text, In (Line text) prompts /\ user_input = strip text.
Proof.
  intros strip Soul soul_name soul_run Command get_meta_command call
         soul welcome_info prompts r soul' actions.
  unfold run.
  destruct (prompt_loop strip Soul soul_run Command get_meta_command call
              prompts soul) as [[r1 soul1] acts] eqn:Hloop.
  intro H. injection H as <- <- <-.
  intros user_input Hin.
  destruct Hin as [H | [H | [H | Hin]]]; try discriminate.
  pose proof (soul_inputs_checked_loop strip Soul soul_run Command
                get_meta_command call prompts soul r1 soul1 acts Hloop) as Hall.
  rewrite Forall_forall in Hall. exact (Hall _ Hin).
Qed.

(** A session for the witnesses: the soul fails on "boom", the only
    meta command is "help". *)
Lemma soul_inputs_are_checked_witness :
  "fix the bug" <> ""
  /\ ~ In "fix the bug" ["exit"; "quit"; "/exit"; "/quit"]
  /\ String.prefix "/" "fix the bug" = false
  /\ exists text,
       In (Line text) [ Line "/help"; Line "fix the bug"; Line "exit" ]
       /\ "fix the bug" = (fun s : string => s) text.
Proof.
  apply (soul_inputs_are_checked (fun s => s) unit (fun _ => "Kimi")
           (fun s input => (if (input =? "boom")%string
                            then OtherException "boom" else Completed, s))
           string
           (fun n => if (n =? "help")%string then Some "help" else None)
           (fun c args s => (None, s))
           tt [] [ Line "/help"; Line "fix the bug"; Line "exit" ]
           _ _ _ eq_refl).
  simpl. tauto.
Defined.

(** X18.  An interactive session never returns [False], whatever the
    runs of the soul come to; and once the prompt loop is running, the
    only exception that leaves it is one that a meta command raises. *)
Theorem session_never_fails :
  forall (strip : string -> string) (Soul : Type) (soul_name : Soul -> string)
         (soul_run : Soul -> string -> SoulRun * Soul) (Command : Type)
         (get_meta_command : string -> option Command)
         (call : Command -> list string -> Soul -> option string * Soul)
         (soul : Soul) (welcome_info : list (string * string))
         (prompts : list Prompt),
    (forall r soul' actions,
        run strip Soul soul_name soul_run Command get_meta_command call
            soul welcome_info None prompts = (r, soul', actions) ->
        r <> Exited false)
    /\ (forall r soul' actions,
           prompt_loop strip Soul soul_run Command get_meta_command call
             prompts soul = (r, soul', actions) ->
           r <> Exited false
           /\ (forall e, r = Crashed e ->
                         exists command args s,
                           fst (call command args s) = Some e)).
Proof.
  intros strip Soul soul_name soul_run Command get_meta_command call
         soul welcome_info prompts.
  assert (Hloop : forall r soul' actions,
             prompt_loop strip Soul soul_run Command get_meta_command call
               prompts soul = (r, soul', actions) ->
             r <> Exited false
             /\ (forall e, r = Crashed e ->
                           exists command args s,
                             fst (call command args s) = Some e)).
  { intros r soul' actions H.
    pose proof (loop_result strip Soul soul_run Command get_meta_command call
                  prompts soul r soul' actions H) as Hr.
    split.
    - intros ->. discriminate.
    - intros e ->. exact Hr. }
  split; [|exact Hloop].
  intros r soul' actions. unfold run.
  destruct (prompt_loop strip Soul soul_run Command get_meta_command call
              prompts soul) as [[r1 soul1] acts] eqn:Hrun.
  intro H. injection H as <- <- <-.
  exact (proj1 (Hloop r1 soul1 acts eq_refl)).
Qed.

Lemma session_never_fails_witness :
  Exited true <> Exited false
  /\ (forall e, Exited true = Crashed e ->
                exists (command : string) (args : list string) (s : unit),
                  fst ((fun c args s => (@None string, s)) command args s) = Some e).
Proof.
  apply (proj2 (session_never_fails (fun s => s) unit (fun _ => "Kimi")
                  (fun s input => (if (input =? "boom")%string
                                   then OtherException "boom" else Completed, s))
                  string
                  (fun n => if (n =? "help")%string then Some "help" else None)
                  (fun c args s => (None, s))
                  tt [] [ Line "boom"; Line "/help"; PromptEOFError ])
               (Exited true) tt _ eq_refl).
Defined.

(** X19.  Leaving the session.  After any Ctrl-C and blank lines, the end of
    input or one of the exit words ends the session with [True]: the
    soul is not run, only lines are printed, and the prompts that would
    follow are not read. *)
Theorem session_ends_on_exit :
  forall (strip : string -> string) (Soul : Type) (soul_name : Soul -> string)
         (soul_run : Soul -> string -> SoulRun * Soul) (Command : Type)
         (get_meta_command : string -> option Command)
         (call : Command -> list string -> Soul -> option string * Soul)
         (soul : Soul) (welcome_info : list (string * string))
         (quiet rest : list Prompt) (last : Prompt),
    Forall (fun p => p = PromptKeyboardInterrupt
                     \/ exists text, p = Line text /\ strip text = "") quiet ->
    last = PromptEOFError
    \/ (exists text, last = Line text
                     /\ In (strip text) ["exit"; "quit"; "/exit"; "/quit"]) ->
    exists actions,
      run strip Soul soul_name soul_run Command get_meta_command call
          soul welcome_info None (quiet ++ last :: rest) =
        (Exited true, soul, actions ++ [Print "Bye!"])
      /\ Forall (fun a => exists line, a = Print line \/ a = PrintPanel line)
                actions.
Proof.
  intros strip Soul soul_name soul_run Command get_meta_command call
         soul welcome_info quiet rest last Hquiet Hlast.
  destruct (loop_skips_quiet strip Soul soul_run Command get_meta_command call
              quiet (last :: rest) soul Hquiet) as [tips [Htips Hloop]].
  assert (Hend : prompt_loop strip Soul soul_run Command get_meta_command call
                   (last :: rest) soul = (Exited true, soul, [Print "Bye!"])).
  { destruct Hlast as [-> | [text [-> Hword]]]; [reflexivity|].
    cbn [prompt_loop].
    assert (Hne : truthy (strip text) = true).
    { simpl in Hword.
      destruct Hword as [<- | [<- | [<- | [<- | []]]]]; reflexivity. }
    rewrite Hne. cbn [negb]. cbv iota.
    apply (proj2 (existsb_eqb_In _ _)) in Hword.
    unfold exit_words. now rewrite Hword. }
  rewrite Hend in Hloop.
  exists (Print "" :: PrintPanel (welcome Soul soul_name soul welcome_info)
            :: Print "" :: tips).
  split.
  - unfold run. rewrite Hloop. reflexivity.
  - repeat (constructor; [eexists; (now left) || (now right)|]).
    eapply Forall_impl; [|exact Htips].
    intros a [line ->]. exists line. now left.
Qed.

Lemma session_ends_on_exit_witness :
  exists actions,
    run (fun s => s) unit (fun _ => "Kimi")
        (fun s input => (Completed, s)) string (fun n => None)
        (fun c args s => (None, s))
        tt [] None
        ([PromptKeyboardInterrupt; Line ""] ++ Line "/quit" :: [Line "hello"]) =
      (Exited true, tt, actions ++ [Print "Bye!"])
    /\ Forall (fun a => exists line, a = Print line \/ a = PrintPanel line)
              actions.
Proof.
  apply (session_ends_on_exit (fun s => s) unit (fun _ => "Kimi")
           (fun s input => (Completed, s)) string (fun n => None)
           (fun c args s => (None, s)) tt []
           [PromptKeyboardInterrupt; Line ""] [Line "hello"] (Line "/quit")).
  - constructor; [now left|]. constructor; [|constructor].
    right. exists "". split; reflexivity.
  - right. exists "/quit". split; [reflexivity | simpl; tauto].
Defined.



(** X21.  How a meta command line is read.  The name of the command is the
    text before the first space and the arguments are the pieces between
    the spaces after it: joined by single spaces they give the line
    back.  An unknown name is reported and changes nothing; a known one
    is called with the arguments. *)
Theorem meta_command_line :
  forall (Soul Command : Type)
         (get_meta_command : string -> option Command)
         (call : Command -> list string -> Soul -> option string * Soul)
         (soul : Soul) (command_str : string),
    exists command_name command_args,
      split_spaces command_str = command_name :: command_args
      /\ String.concat " " (command_name :: command_args) = command_str
      /\ ~ In " "%char (list_ascii_of_string command_name)
      /\ (get_meta_command command_name = None ->
          _run_meta_command Soul Command get_meta_command call soul command_str =
            (None, soul,
             [Print ("Meta command /" ++ command_name ++ " not found")%string]))
      /\ (forall command,
             get_meta_command command_name = Some command ->
             _run_meta_command Soul Command get_meta_command call soul command_str =
               (fst (call command command_args soul),
                snd (call command command_args soul),
                [CallMeta command_name command_args])).
Proof.
  intros Soul Command get_meta_command call soul command_str.
  destruct (split_spaces_spec command_str) as [Hne [Hjoin Hpieces]].
  unfold _run_meta_command.
  destruct (split_spaces command_str) as [|command_name command_args];
    [contradiction|].
  exists command_name, command_args. cbn [hd tl].
  split; [reflexivity|]. split; [exact Hjoin|].
  split; [now inversion Hpieces|].
  split.
  - intros ->. reflexivity.
  - intros command ->. now destruct (call command command_args soul).
Qed.

Lemma meta_command_line_witness :
  exists command_name command_args,
    split_spaces "model  kimi-k2" = command_name :: command_args
    /\ command_name = "model" /\ command_args = [""; "kimi-k2"]
    /\ _run_meta_command unit string (fun n => None)
         (fun c args s => (None, s)) tt "model  kimi-k2" =
       (None, tt, [Print "Meta command /model not found"]).
Proof.
  destruct (meta_command_line unit string (fun n => None)
              (fun c args s => (@None string, s)) tt "model  kimi-k2")
    as [command_name [command_args [Hsplit [_ [_ [Hnone _]]]]]].
  exists command_name, command_args.
  split; [exact Hsplit|].
  specialize (Hnone eq_refl).
  injection Hsplit as <- <-.
  split; [reflexivity|]. split; [reflexivity|]. exact Hnone.
Defined.

(** ** The visualizer, continued *)

Import VisualTrace.

Lemma step_loop_screen (queue : EventQueue) :
  forall event step,
    match step_loop event queue step with
    | Broke e q s =>
        (s ++ screen_in_step (e :: q) = step ++ screen_in_step (event :: queue))%list
    | Starved s => s = (step ++ screen_in_step (event :: queue))%list
    end.
Proof.
  induction queue as [|event' queue IH]; intros event step.
  - destruct event as [| | | | |[|]| | |]; simpl; rewrite ?app_nil_r; reflexivity.
  - destruct event as [| | | | |[|]| | |];
      try (simpl; reflexivity);
      cbn [step_loop];
      match goal with
      | |- context [step_loop event' queue ?s] =>
          specialize (IH event' s); destruct (step_loop event' queue s)
      end;
      rewrite IH; cbn [screen_in_step drawn]; rewrite <- app_assoc; reflexivity.
Qed.

(** The screen of the outer loop, in full. *)
Lemma visualize_loop_screen (fuel : nat) :
  forall queue screen,
    (List.length queue < fuel)%nat ->
    visualize_loop fuel queue screen =
      Some (outcome_of_stream queue,
            screen ++ Spinner :: match queue with
                                 | [] => []
                                 | _ :: _ => EnterStep :: screen_in_step queue
                                 end).
Proof.
  induction fuel as [|fuel IH]; intros queue screen Hfuel; [lia|].
  destruct queue as [|event queue]; cbn [visualize_loop Events.get];
    [reflexivity|].
  pose proof (step_loop_spec queue event (screen ++ [Spinner; EnterStep])) as Hspec.
  pose proof (step_loop_screen queue event (screen ++ [Spinner; EnterStep])) as Hscr.
  destruct (step_loop event queue (screen ++ [Spinner; EnterStep]))
    as [e q step | step].
  - destruct Hspec as [Heq [Hlen He]]. rewrite Heq.
    replace (screen ++ Spinner :: EnterStep :: screen_in_step (event :: queue))
      with ((screen ++ [Spinner; EnterStep]) ++ screen_in_step (event :: queue))
      by (now rewrite <- app_assoc).
    rewrite <- Hscr.
    destruct e; try contradiction; simpl; try reflexivity.
    rewrite IH by (simpl in Hfuel; lia).
    rewrite <- app_assoc. reflexivity.
  - rewrite Hspec, Hscr. rewrite <- app_assoc. reflexivity.
Qed.

Lemma visualize_screen (n : Z) (rest : list Event) :
  _visualize (RunBegin :: StepBegin n :: rest) =
    Some (outcome_of_stream rest,
          Spinner :: match rest with
                     | [] => []
                     | _ :: _ => EnterStep :: screen_in_step rest
                     end).
Proof.
  unfold _visualize, visualize_with.
  cbn [Events.get is_RunBegin is_StepBegin negb].
  rewrite visualize_loop_screen by (simpl; lia). reflexivity.
Qed.

Lemma drawings_of_body (body tail : list Event) (terminal : Event) :
  Forall (fun e => is_RunBegin e = false
                   /\ is_StepInterrupted e = false
                   /\ is_RunEnd e = false) body ->
  is_StepInterrupted terminal || is_RunEnd terminal = true ->
  filter is_drawing (screen_in_step (body ++ terminal :: tail)) =
    flat_map drawn body
  /\ exists before,
       screen_in_step (body ++ terminal :: tail) =
         before ++ [if is_StepInterrupted terminal then Interrupt else Finish].
Proof.
  intros Hbody Hterm.
  induction Hbody as [|e body [H1 [H2 H3]] _ [IHd [before IHl]]].
  - destruct terminal; try discriminate; simpl; split; try reflexivity;
      exists []; reflexivity.
  - destruct e as [| | n | | usage | [text | cls payload] | tc | part | tr];
      try discriminate; cbn [app screen_in_step drawn flat_map].
    + destruct (body ++ terminal :: tail) as [|x xs] eqn:Hxs;
        [now destruct body|].
      cbn [filter is_drawing]. split; [exact IHd|].
      rewrite IHl. exists (Finish :: Spinner :: EnterStep :: before). reflexivity.
    + cbn [filter is_drawing app]. rewrite IHd. split; [reflexivity|].
      rewrite IHl. eexists (_ :: before). reflexivity.
    + cbn [filter is_drawing app]. rewrite IHd. split; [reflexivity|].
      rewrite IHl. eexists (_ :: before). reflexivity.
    + cbn [filter is_drawing app]. rewrite IHd. split; [reflexivity|].
      rewrite IHl. eexists (_ :: before). reflexivity.
    + cbn [filter is_drawing app]. rewrite IHd. split; [reflexivity|].
      rewrite IHl. eexists (_ :: before). reflexivity.
    + cbn [filter is_drawing app]. rewrite IHd. split; [reflexivity|].
      rewrite IHl. eexists (_ :: before). reflexivity.
    + cbn [filter is_drawing app]. rewrite IHd. split; [reflexivity|].
      rewrite IHl. eexists (_ :: before). reflexivity.
Qed.

(** X22.  Every event is drawn once.  On a stream that follows the protocol,
    what the step views are asked to draw is, in order, the drawing of
    each event before the first terminal event and nothing else: no
    event is skipped or drawn twice, and nothing after the terminal
    event is drawn.  The last view is closed by [interrupt] after
    [StepInterrupted] and by [finish] after [RunEnd]. *)
Theorem visualize_draws_each_event_once :
  forall (n : Z) (body tail : list Event) (terminal : Event),
    Forall (fun e => is_RunBegin e = false
                     /\ is_StepInterrupted e = false
                     /\ is_RunEnd e = false) body ->
    is_StepInterrupted terminal || is_RunEnd terminal = true ->
    exists screen before,
      _visualize (RunBegin :: StepBegin n :: body ++ terminal :: tail) =
        Some (Returned tt, screen)
      /\ filter is_drawing screen = flat_map drawn body
      /\ screen = before
                    ++ [if is_StepInterrupted terminal then Interrupt else Finish].
Proof.
  intros n body tail terminal Hbody Hterm.
  destruct (drawings_of_body body tail terminal Hbody Hterm)
    as [Hdrawn [before Hlast]].
  destruct (outcome_of_stream_terminal body tail terminal Hbody Hterm)
    as [Hreturn _].
  rewrite visualize_screen, Hreturn.
  destruct (body ++ terminal :: tail) as [|x xs] eqn:Hxs; [now destruct body|].
  do 2 eexists. split; [reflexivity|]. split.
  - cbn [filter is_drawing]. exact Hdrawn.
  - rewrite Hlast. instantiate (1 := Spinner :: EnterStep :: before). reflexivity.
Qed.

Lemma visualize_draws_each_event_once_witness :
  exists screen before,
    _visualize
      (RunBegin :: StepBegin 1
         :: [ Content (TextPart "let me look");
              StepBegin 2;
              Content (OtherPart "ImageURLPart" "file:///a.png") ]
         ++ StepInterrupted :: [Content (TextPart "late")]) =
      Some (Returned tt, screen)
    /\ filter is_drawing screen =
         flat_map drawn [ Content (TextPart "let me look");
                          StepBegin 2;
                          Content (OtherPart "ImageURLPart" "file:///a.png") ]
    /\ screen = before ++ [if is_StepInterrupted StepInterrupted
                           then Interrupt else Finish].
Proof.
  apply (visualize_draws_each_event_once 1
           [ Content (TextPart "let me look");
             StepBegin 2;
             Content (OtherPart "ImageURLPart" "file:///a.png") ]
           [Content (TextPart "late")] StepInterrupted).
  - repeat constructor.
  - reflexivity.
Defined.

Lemma outcome_raised_iff (rest : list Event) :
  (exists e, outcome_of_stream rest = Raised e) <->
  (exists body tail,
      rest = body ++ RunBegin :: tail
      /\ Forall (fun e => is_StepInterrupted e = false
                          /\ is_RunEnd e = false) body).
Proof.
  split.
  - induction rest as [|event rest IH]; intros [e He]; simpl in He;
      [discriminate|].
    destruct event;
      try discriminate;
      try (exists [], rest; split; [reflexivity | constructor]; fail);
      (destruct (IH (ex_intro _ e He)) as [body [tail [-> Hbody]]];
       eexists (_ :: body), tail; split;
       [reflexivity | constructor; [split; reflexivity | exact Hbody]]).
  - intros [body [tail [-> Hbody]]].
    induction Hbody as [|event body [H1 H2] _ IH]; simpl.
    + eexists; reflexivity.
    + destruct event; try discriminate; try exact IH.
      eexists; reflexivity.
Qed.

(** X23.  When the visualizer fails.  An assertion of [_visualize] fails on
    exactly three kinds of streams: the first event is not [RunBegin];
    the second is not [StepBegin]; or, after these two, a [RunBegin]
    comes before any [StepInterrupted] or [RunEnd]. *)
Theorem visualize_fails_exactly_when :
  forall event_queue : EventQueue,
    (exists e screen, _visualize event_queue = Some (Raised e, screen)) <->
    ((exists first rest,
         event_queue = first :: rest /\ is_RunBegin first = false)
     \/ (exists second rest,
            event_queue = RunBegin :: second :: rest
            /\ is_StepBegin second = false)
     \/ (exists n body tail,
            event_queue = RunBegin :: StepBegin n :: body ++ RunBegin :: tail
            /\ Forall (fun e => is_StepInterrupted e = false
                                /\ is_RunEnd e = false) body)).
Proof.
  intros event_queue. split.
  - intros [e [screen H]].
    destruct event_queue as [|first [|second rest]]; simpl in H.
    + discriminate.
    + destruct first; try discriminate;
        left; do 2 eexists; split; reflexivity.
    + destruct first;
        try (left; do 2 eexists; split; reflexivity).
      destruct second;
        try (right; left; do 2 eexists; split; reflexivity).
      right; right.
      rewrite visualize_screen in H. injection H as Hout _.
      destruct (proj1 (outcome_raised_iff rest) (ex_intro _ e Hout))
        as [body [tail [-> Hbody]]].
      now exists n, body, tail.
  - intros [[first [rest [-> Hfirst]]]
           | [[second [rest [-> Hsecond]]]
             | [n [body [tail [-> Hbody]]]]]].
    + destruct first; try discriminate; do 2 eexists; reflexivity.
    + destruct second; try discriminate;
        destruct rest; do 2 eexists; reflexivity.
    + rewrite visualize_screen.
      destruct (proj2 (outcome_raised_iff (body ++ RunBegin :: tail))
                  (ex_intro _ body (ex_intro _ tail (conj eq_refl Hbody))))
        as [e He].
      rewrite He. do 2 eexists; reflexivity.
Qed.

Lemma visualize_fails_exactly_when_witness :
  exists e screen,
    _visualize
      (RunBegin :: StepBegin 1
         :: [Content (TextPart "hi"); StepBegin 2] ++ RunBegin :: [RunEnd]) =
      Some (Raised e, screen).
Proof.
  apply (proj2 (visualize_fails_exactly_when
                  (RunBegin :: StepBegin 1
                     :: [Content (TextPart "hi"); StepBegin 2]
                     ++ RunBegin :: [RunEnd]))).
  right; right.
  exists 1%Z, [Content (TextPart "hi"); StepBegin 2], [RunEnd].
  split; [reflexivity | repeat constructor].
Defined.
